(* Shallow embedding of the delegated-routing HTTP server
   (routing/http/server, file src/unnamed/part_000) and of the
   content-routing client adapter (routing/http/contentrouter/contentrouter.go).

   Go byte strings ([]byte and string) are modelled as Rocq strings (lists of
   8-bit ascii characters); a Go [error] is modelled by its [Error()] text. *)

From Stdlib Require Import String Ascii List ZArith Lia Bool.
Import ListNotations.
Open Scope string_scope.

(* ------------------------------------------------------------------------- *)
(** * Go library helpers *)

(** A fallible Go result [(T, error)]. *)
Inductive result (A : Type) : Type :=
| Ok (a : A)
| Err (e : string).
Arguments Ok {A} a.
Arguments Err {A} e.

(** [strings.Split(s, ",")]: the pieces between separators, keeping empty
    pieces; [Split("", ",")] is [[""]]. *)
Fixpoint splitComma_aux (s : string) (cur : string) : list string :=
  match s with
  | EmptyString => [cur]
  | String c rest =>
      if Ascii.eqb c ","%char then cur :: splitComma_aux rest ""
      else splitComma_aux rest (cur ++ String c EmptyString)
  end.

Definition splitComma (s : string) : list string := splitComma_aux s "".

(** [strings.HasPrefix]. *)
Fixpoint hasPrefix (s pre : string) : bool :=
  match pre, s with
  | EmptyString, _ => true
  | String p pre', String c s' => Ascii.eqb p c && hasPrefix s' pre'
  | String _ _, EmptyString => false
  end.

(** [strings.Contains(s, sub)]. *)
Fixpoint contains (s sub : string) : bool :=
  hasPrefix s sub ||
  match s with
  | EmptyString => false
  | String _ s' => contains s' sub
  end.

(** [s[:n]] on a byte string (used with [n <= len(s)]). *)
Definition prefixN (n : nat) (s : string) : string := substring 0 n s.

(** Digits of a non-negative integer in base [b] (2 <= b <= 36), lower case,
    as [strconv.FormatUint] and [fmt]'s [%d] print them.  A 64-bit value has
    at most 64 digits in any base >= 2, which bounds the recursion. *)
Definition digitChar (d : Z) : ascii :=
  if (d <? 10)%Z then ascii_of_nat (48 + Z.to_nat d)
  else ascii_of_nat (97 + Z.to_nat (d - 10)).

Fixpoint formatDigits (fuel : nat) (b n : Z) (acc : string) : string :=
  match fuel with
  | O => acc
  | S fuel' =>
      let acc' := String (digitChar (n mod b)) acc in
      if (n / b =? 0)%Z then acc' else formatDigits fuel' b (n / b) acc'
  end.

(** [strconv.FormatUint(n, base)] for a uint64 [n]. *)
Definition FormatUint (n : Z) (base : Z) : string := formatDigits 64 base n "".

(** [fmt.Sprintf("%d", n)] for a Go [int]. *)
Definition formatInt (n : Z) : string :=
  if (n <? 0)%Z then "-" ++ FormatUint (- n) 10 else FormatUint n 10.

(* ------------------------------------------------------------------------- *)
(** * xxhash.Sum64 (github.com/cespare/xxhash/v2): XXH64 with seed 0 *)

Module XXH64.

Definition M64 : Z := 2 ^ 64.
Definition P1 : Z := 11400714785074694791.
Definition P2 : Z := 14029467366897019727.
Definition P3 : Z := 1609587929392839161.
Definition P4 : Z := 9650029242287828579.
Definition P5 : Z := 2870177450012600261.

Definition add (a b : Z) : Z := (a + b) mod M64.
Definition mul (a b : Z) : Z := (a * b) mod M64.
Definition rol (x : Z) (r : Z) : Z :=
  Z.lor (Z.shiftl x r mod M64) (Z.shiftr x (64 - r)).

Definition round (acc input : Z) : Z :=
  mul (rol (add acc (mul input P2)) 31) P1.

Definition mergeRound (acc v : Z) : Z :=
  add (mul (Z.lxor acc (round 0 v)) P1) P4.

Definition byteAt (s : string) (i : nat) : Z :=
  match get i s with
  | Some c => Z.of_nat (nat_of_ascii c)
  | None => 0
  end.

(** Little-endian load of [k] bytes at offset [i]. *)
Fixpoint loadLE (s : string) (i : nat) (k : nat) : Z :=
  match k with
  | O => 0
  | S k' => Z.lor (byteAt s i) (Z.shiftl (loadLE s (S i) k') 8)
  end.

Definition u64 (s : string) (i : nat) : Z := loadLE s i 8.
Definition u32 (s : string) (i : nat) : Z := loadLE s i 4.

(** The 32-byte stripe loop: four accumulators. *)
Fixpoint stripes (fuel : nat) (s : string) (i : nat) (v1 v2 v3 v4 : Z)
  : Z * Z * Z * Z * nat :=
  match fuel with
  | O => (v1, v2, v3, v4, i)
  | S fuel' =>
      if Nat.leb (i + 32) (String.length s) then
        stripes fuel' s (i + 32)
          (round v1 (u64 s i)) (round v2 (u64 s (i + 8)))
          (round v3 (u64 s (i + 16))) (round v4 (u64 s (i + 24)))
      else (v1, v2, v3, v4, i)
  end.

(** The tail: 8-byte words, then one 4-byte word, then single bytes. *)
Fixpoint tail8 (fuel : nat) (s : string) (i : nat) (h : Z) : Z * nat :=
  match fuel with
  | O => (h, i)
  | S fuel' =>
      if Nat.leb (i + 8) (String.length s) then
        let k1 := round 0 (u64 s i) in
        tail8 fuel' s (i + 8) (add (mul (rol (Z.lxor h k1) 27) P1) P4)
      else (h, i)
  end.

Fixpoint tail1 (fuel : nat) (s : string) (i : nat) (h : Z) : Z :=
  match fuel with
  | O => h
  | S fuel' =>
      if Nat.ltb i (String.length s) then
        tail1 fuel' s (S i) (mul (rol (Z.lxor h (mul (byteAt s i) P5)) 11) P1)
      else h
  end.

Definition avalanche (h : Z) : Z :=
  let h := Z.lxor h (Z.shiftr h 33) in
  let h := mul h P2 in
  let h := Z.lxor h (Z.shiftr h 29) in
  let h := mul h P3 in
  Z.lxor h (Z.shiftr h 32).

Definition Sum64 (b : string) : Z :=
  let n := String.length b in
  let '(h, i) :=
    if Nat.leb 32 n then
      let '(v1, v2, v3, v4, i) :=
        stripes n b 0 (add P1 P2) P2 0 ((M64 - P1) mod M64) in
      let h := add (add (add (rol v1 1) (rol v2 7)) (rol v3 12)) (rol v4 18) in
      let h := mergeRound h v1 in
      let h := mergeRound h v2 in
      let h := mergeRound h v3 in
      (mergeRound h v4, i)
    else (P5, 0%nat) in
  let h := add h (Z.of_nat n) in
  let '(h, i) := tail8 n b i h in
  let '(h, i) :=
    if Nat.leb (i + 4) n then
      (add (mul (rol (Z.lxor h (mul (u32 b i) P1)) 23) P2) P3, (i + 4)%nat)
    else (h, i) in
  avalanche (tail1 n b i h).

End XXH64.

(* ------------------------------------------------------------------------- *)
(** * Discovery records and result iterators *)

(** Modelled from the spec: the polymorphic [types.Record] (package
    routing/http/types, not in src) as a tagged union with the peer variant
    and the catch-all opaque variant; [GetSchema] returns the schema tag the
    value carries. *)
Inductive TypesRecord : Type :=
| PeerRecord (Schema : string) (ID : string) (Addrs : list string)
| UnknownRecord (Schema : string) (RawRecord : string).

Definition SchemaPeer : string := "peer".

Definition GetSchema (r : TypesRecord) : string :=
  match r with
  | PeerRecord s _ _ => s
  | UnknownRecord s _ => s
  end.

(** One item of an [iter.ResultIter[types.Record]]: a value or an error.
    A finite list of items is an iterator that exhausts after its last item. *)
Inductive IterResult : Type :=
| RVal (v : TypesRecord)
| RErr (e : string).

(* ------------------------------------------------------------------------- *)
(** * The HTTP response writer *)

(** An [http.ResponseWriter]: the mutable header map, the committed status
    (with the headers as they were when it was committed) and the body bytes. *)
Record ResponseWriter : Type := mkRW {
  rwHeader : list (string * string);
  rwStatus : option Z;
  rwSentHeader : list (string * string);
  rwBody : string
}.

Definition emptyRW : ResponseWriter := mkRW [] None [] "".

(** [w.Header().Set(k, v)]. *)
Definition headerSet (k v : string) (w : ResponseWriter) : ResponseWriter :=
  mkRW (filter (fun kv => negb (String.eqb (fst kv) k)) (rwHeader w) ++ [(k, v)])%list
       (rwStatus w) (rwSentHeader w) (rwBody w).

(** [w.Header().Add(k, v)]. *)
Definition headerAdd (k v : string) (w : ResponseWriter) : ResponseWriter :=
  mkRW (rwHeader w ++ [(k, v)])%list (rwStatus w) (rwSentHeader w) (rwBody w).

(** [w.WriteHeader(code)]: only the first call has an effect. *)
Definition writeHeader (code : Z) (w : ResponseWriter) : ResponseWriter :=
  match rwStatus w with
  | Some _ => w
  | None => mkRW (rwHeader w) (Some code) (rwHeader w) (rwBody w)
  end.

(** [w.Write(b)]: commits status 200 if nothing was committed yet. The
    writer records every byte (as an [httptest.ResponseRecorder] does). *)
Definition write (b : string) (w : ResponseWriter) : ResponseWriter :=
  let w := writeHeader 200 w in
  mkRW (rwHeader w) (rwStatus w) (rwSentHeader w) (rwBody w ++ b).

(** [http.Flusher.Flush]: commits status 200 if nothing was committed yet. *)
Definition flush (w : ResponseWriter) : ResponseWriter := writeHeader 200 w.

(** The status the client sees once the handler returns. *)
Definition finalStatus (w : ResponseWriter) : Z :=
  match rwStatus w with Some c => c | None => 200 end.

(** [writeErr]: status, then the cause truncated to 1024 bytes. *)
Definition truncateCause (causeStr : string) : string :=
  if Nat.ltb 1024 (String.length causeStr) then prefixN 1024 causeStr else causeStr.

Definition writeErr (method : string) (statusCode : Z) (cause : string)
  (w : ResponseWriter) : ResponseWriter :=
  write (truncateCause cause) (writeHeader statusCode w).

(* ------------------------------------------------------------------------- *)
(** * Request headers and bodies *)

(** An [http.Header], keys in canonical form, values in order. *)
Definition Header := list (string * string).

(** [Header.Values(k)]. *)
Definition headerValues (h : Header) (k : string) : list string :=
  map snd (filter (fun kv => String.eqb (fst kv) k) h).

(** [Header.Get(k)]: the first value, or [""]. *)
Definition headerGet (h : Header) (k : string) : string :=
  match headerValues h k with
  | v :: _ => v
  | [] => ""
  end.

(** A request body: the bytes the client sends, then either end of stream
    ([None]) or a read error ([Some e]) on the next read. *)
Record Body : Type := mkBody {
  bodyBytes : string;
  bodyErr : option string
}.

(** [io.ReadAll(io.LimitReader(body, n))]: the limited reader returns EOF as
    soon as [n] bytes were read, so a longer body is cut to its first [n]
    bytes without an error; a shorter one is read to its end, where a read
    error surfaces. *)
Definition readAllLimited (n : nat) (b : Body) : result string :=
  if Nat.leb n (String.length (bodyBytes b)) then Ok (prefixN n (bodyBytes b))
  else match bodyErr b with
       | None => Ok (bodyBytes b)
       | Some e => Err e
       end.

Record Request : Type := mkReq {
  reqCid : string;        (* mux.Vars(r)["cid"] *)
  reqHeader : Header;
  reqBody : Body
}.

Definition mediaTypeJSON : string := "application/json".
Definition mediaTypeNDJSON : string := "application/x-ndjson".
Definition mediaTypeWildcard : string := "*/*".
Definition mediaTypeIPNSRecord : string := "application/vnd.ipfs.ipns-record".

Definition DefaultRecordsLimit : Z := 20.
Definition DefaultStreamingRecordsLimit : Z := 0.

Definition newline : string := String (ascii_of_nat 10) EmptyString.

(** Values handed to [drjson.MarshalJSONBytes]. *)
Inductive JSONValue : Type :=
| JRecord (r : TypesRecord)
| JProvidersResponse (Providers : list TypesRecord).

(** The libraries the server calls and does not implement: [cid.Decode],
    [mime.ParseMediaType] (its media type or its error), the [ipns] codec and
    validator, the record TTL in whole seconds ([int(ttl.Seconds())]) and the
    deterministic JSON marshaller. *)
Record Deps (IpnsRecord : Type) : Type := mkDeps {
  cidDecode : string -> result string;
  ParseMediaType : string -> result string;
  NameFromCid : string -> result string;
  MaxRecordSize : nat;
  UnmarshalRecord : string -> result IpnsRecord;
  ValidateWithName : IpnsRecord -> string -> option string;
  MarshalRecord : IpnsRecord -> result string;
  RecordTTL : IpnsRecord -> result Z;
  MarshalJSONBytes : JSONValue -> result string
}.

(** The [ContentRouter] interface the server delegates to. A call to
    [FindProviders] returns the whole (finite) result sequence. *)
Record ContentRouter (IpnsRecord : Type) : Type := mkContentRouter {
  FindProviders : string -> Z -> result (list IterResult);
  FindIPNSRecord : string -> result IpnsRecord;
  ProvideIPNSRecord : string -> IpnsRecord -> option string
}.

Record server (IpnsRecord : Type) : Type := mkServer {
  svc : ContentRouter IpnsRecord;
  disableNDJSON : bool;
  recordsLimit : Z;
  streamingRecordsLimit : Z
}.

Arguments cidDecode {_}. Arguments ParseMediaType {_}. Arguments NameFromCid {_}.
Arguments MaxRecordSize {_}. Arguments UnmarshalRecord {_}.
Arguments ValidateWithName {_}. Arguments MarshalRecord {_}.
Arguments RecordTTL {_}. Arguments MarshalJSONBytes {_}.
Arguments FindProviders {_}. Arguments FindIPNSRecord {_}.
Arguments ProvideIPNSRecord {_}.
Arguments svc {_}. Arguments disableNDJSON {_}. Arguments recordsLimit {_}.
Arguments streamingRecordsLimit {_}.

(** Observable effects besides the response: the backend calls and the
    release of a result iterator ([provIter.Close()]). *)
Inductive Event (IpnsRecord : Type) : Type :=
| EvFindProviders (key : string) (limit : Z)
| EvFindIPNSRecord (name : string)
| EvProvideIPNSRecord (name : string) (record : IpnsRecord)
| EvIterClose.
Arguments EvFindProviders {_}. Arguments EvFindIPNSRecord {_}.
Arguments EvProvideIPNSRecord {_}. Arguments EvIterClose {_}.

Record World (IpnsRecord : Type) : Type := mkWorld {
  wRW : ResponseWriter;
  wEvents : list (Event IpnsRecord)
}.
Arguments mkWorld {_}. Arguments wRW {_}. Arguments wEvents {_}.

Definition onRW {IR} (f : ResponseWriter -> ResponseWriter) (st : World IR) : World IR :=
  mkWorld (f (wRW st)) (wEvents st).

Definition emit {IR} (ev : Event IR) (st : World IR) : World IR :=
  mkWorld (wRW st) (wEvents st ++ [ev])%list.

Definition initWorld {IR} : World IR := mkWorld emptyRW [].

Section Server.

Context {IpnsRecord : Type}.
Variable d : Deps IpnsRecord.
Variable s : server IpnsRecord.


(** [writeJSONResult]: the marshalled bytes are copied with [io.Copy] from a
    [bytes.Buffer], which calls [Write] only for a non-empty buffer. *)
Definition writeJSONResult (method : string) (val : JSONValue)
  (w : ResponseWriter) : ResponseWriter :=
  let w := headerAdd "Content-Type" mediaTypeJSON w in
  match MarshalJSONBytes d val with
  | Err e => writeErr method 500 ("marshaling response: " ++ e) w
  | Ok b => if String.eqb b "" then w else write b w
  end.

(** The loop over the tokens of one [Accept] header value; the accumulator is
    [(supportsNDJSON, supportsJSON)]; an unparsable token ends the loop. *)
Fixpoint scanAcceptTokens (toks : list string) (acc : bool * bool)
  : result (bool * bool) :=
  match toks with
  | [] => Ok acc
  | accept :: rest =>
      match ParseMediaType d accept with
      | Err e => Err e
      | Ok mediaType =>
          let '(supportsNDJSON, supportsJSON) := acc in
          let acc' :=
            if String.eqb mediaType mediaTypeJSON || String.eqb mediaType mediaTypeWildcard
            then (supportsNDJSON, true)
            else if String.eqb mediaType mediaTypeNDJSON then (true, supportsJSON)
            else acc in
          scanAcceptTokens rest acc'
      end
  end.

Fixpoint scanAcceptHeaders (hs : list string) (acc : bool * bool)
  : result (bool * bool) :=
  match hs with
  | [] => Ok acc
  | acceptHeader :: rest =>
      match scanAcceptTokens (splitComma acceptHeader) acc with
      | Err e => Err e
      | Ok acc' => scanAcceptHeaders rest acc'
      end
  end.

(** The handler [findProviders] picks. *)
Inductive handlerFunc : Type := HJSON | HNDJSON.

(** Lines 124-159 of [findProviders]: the chosen handler and records limit,
    or the error response (status and cause). *)
Definition negotiate (acceptHeaders : list string)
  : (handlerFunc * Z) + (Z * string) :=
  match acceptHeaders with
  | [] => inl (HJSON, recordsLimit s)
  | _ :: _ =>
      match scanAcceptHeaders acceptHeaders (false, false) with
      | Err e => inr (400%Z, "unable to parse Accept header: " ++ e)
      | Ok (supportsNDJSON, supportsJSON) =>
          if supportsNDJSON && negb (disableNDJSON s) then inl (HNDJSON, streamingRecordsLimit s)
          else if supportsJSON then inl (HJSON, recordsLimit s)
          else inr (400%Z, "no supported content types")
      end
  end.

(** The loop of [findProvidersJSON]: the collected providers, or the cause
    of the 500 for the first error item (with its 0-based index). *)
Fixpoint collectProviders (it : list IterResult) (i : nat)
  (providers : list TypesRecord) : result (list TypesRecord) :=
  match it with
  | [] => Ok providers
  | RErr e :: _ =>
      Err ("delegate error on result " ++ formatInt (Z.of_nat i) ++ ": " ++ e)
  | RVal v :: rest => collectProviders rest (S i) (providers ++ [v])%list
  end.

Definition findProvidersJSON (it : list IterResult) (st : World IpnsRecord) : World IpnsRecord :=
  let st :=
    match collectProviders it 0 [] with
    | Err cause => onRW (writeErr "FindProviders" 500 cause) st
    | Ok providers =>
        onRW (writeJSONResult "FindProviders" (JProvidersResponse providers)) st
    end in
  emit EvIterClose st.  (* defer provIter.Close() *)

(** The loop of [findProvidersNDJSON]. The writer accepts every write, so
    the write-error branches are not taken. *)
Fixpoint ndjsonLoop (it : list IterResult) (w : ResponseWriter) : ResponseWriter :=
  match it with
  | [] => w
  | RErr _ :: _ => w
  | RVal v :: rest =>
      match MarshalJSONBytes d (JRecord v) with
      | Err _ => w
      | Ok b => ndjsonLoop rest (flush (write newline (write b w)))
      end
  end.

Definition findProvidersNDJSON (it : list IterResult) (st : World IpnsRecord) : World IpnsRecord :=
  let st := onRW (fun w => ndjsonLoop it (writeHeader 200
                    (headerSet "Content-Type" mediaTypeNDJSON w))) st in
  emit EvIterClose st.

Definition runHandler (h : handlerFunc) : list IterResult -> World IpnsRecord -> World IpnsRecord :=
  match h with
  | HJSON => findProvidersJSON
  | HNDJSON => findProvidersNDJSON
  end.

Definition findProviders (r : Request) (st : World IpnsRecord) : World IpnsRecord :=
  match cidDecode d (reqCid r) with
  | Err e => onRW (writeErr "FindProviders" 400 ("unable to parse CID: " ++ e)) st
  | Ok c =>
      match negotiate (headerValues (reqHeader r) "Accept") with
      | inr (code, cause) => onRW (writeErr "FindProviders" code cause) st
      | inl (hf, limit) =>
          let st := emit (EvFindProviders c limit) st in
          match FindProviders (svc s) c limit with
          | Err e => onRW (writeErr "FindProviders" 500 ("delegate error: " ++ e)) st
          | Ok provIter => runHandler hf provIter st
          end
      end
  end.

(** [getIPNSRecord]; the Etag is [strconv.FormatUint(xxhash.Sum64(raw), 32)]. *)
Definition recordEtag (rawRecord : string) : string :=
  FormatUint (XXH64.Sum64 rawRecord) 32.

Definition getIPNSRecord (r : Request) (st : World IpnsRecord) : World IpnsRecord :=
  if negb (contains (headerGet (reqHeader r) "Accept") mediaTypeIPNSRecord) then
    onRW (writeErr "GetIPNSRecord" 406
      "content type in 'Accept' header is missing or not supported") st
  else
  match cidDecode d (reqCid r) with
  | Err e => onRW (writeErr "GetIPNSRecord" 400 ("unable to parse CID: " ++ e)) st
  | Ok c =>
  match NameFromCid d c with
  | Err e => onRW (writeErr "GetIPNSRecord" 400 ("peer ID CID is not valid: " ++ e)) st
  | Ok name =>
  let st := emit (EvFindIPNSRecord name) st in
  match FindIPNSRecord (svc s) name with
  | Err e => onRW (writeErr "GetIPNSRecord" 500 ("delegate error: " ++ e)) st
  | Ok record =>
  match MarshalRecord d record with
  | Err e => onRW (writeErr "GetIPNSRecord" 500 e) st
  | Ok rawRecord =>
      let cacheControl :=
        match RecordTTL d record with
        | Ok secs => "max-age=" ++ formatInt secs
        | Err _ => "max-age=60"
        end in
      onRW (fun w =>
        write rawRecord
          (headerSet "Content-Type" mediaTypeIPNSRecord
            (headerSet "Etag" (recordEtag rawRecord)
              (headerSet "Cache-Control" cacheControl w)))) st
  end end end end.

Definition putIPNSRecord (r : Request) (st : World IpnsRecord) : World IpnsRecord :=
  if negb (contains (headerGet (reqHeader r) "Content-Type") mediaTypeIPNSRecord) then
    onRW (writeErr "PutIPNSRecord" 406
      "content type in 'Content-Type' header is missing or not supported") st
  else
  match cidDecode d (reqCid r) with
  | Err e => onRW (writeErr "PutIPNSRecord" 400 ("unable to parse CID: " ++ e)) st
  | Ok c =>
  match NameFromCid d c with
  | Err e => onRW (writeErr "PutIPNSRecord" 400 ("peer ID CID is not valid: " ++ e)) st
  | Ok name =>
  match readAllLimited (MaxRecordSize d) (reqBody r) with
  | Err e => onRW (writeErr "PutIPNSRecord" 400 ("provided record is too long: " ++ e)) st
  | Ok rawRecord =>
  match UnmarshalRecord d rawRecord with
  | Err e => onRW (writeErr "PutIPNSRecord" 400 ("provided record is invalid: " ++ e)) st
  | Ok record =>
  match ValidateWithName d record name with
  | Some e => onRW (writeErr "PutIPNSRecord" 400 ("provided record is invalid: " ++ e)) st
  | None =>
  let st := emit (EvProvideIPNSRecord name record) st in
  match ProvideIPNSRecord (svc s) name record with
  | Some e => onRW (writeErr "PutIPNSRecord" 500 ("delegate error: " ++ e)) st
  | None => onRW (writeHeader 200) st
  end end end end end end.

End Server.

(* ------------------------------------------------------------------------- *)
(** * contentrouter.go: the asynchronous bridge *)

Module ContentRouterClient.

(** [peer.AddrInfo]. *)
Record AddrInfo : Type := mkAddrInfo {
  aiID : string;
  aiAddrs : list string
}.

(** The [Client] interface: [FindProviders(ctx, key)] has no limit argument. *)
Record Client : Type := mkClient {
  ClientFindProviders : string -> result (list IterResult)
}.

(** The calls made on the client. *)
Inductive ClientCall : Type :=
| CallFindProviders (key : string).

(** What the worker does, in order: channel sends, the iterator release and
    the channel close. *)
Inductive ChanEvent : Type :=
| ChSend (ai : AddrInfo)
| ChIterClose
| ChClose.

(** The loop of [readProviderResponses]: error items are logged and skipped
    ([continue]); records whose schema is [SchemaPeer] are cast to
    [*types.PeerRecord] (a failed cast is logged and skipped) and sent. *)
Fixpoint forwardLoop (it : list IterResult) : list ChanEvent :=
  match it with
  | [] => []
  | RErr _ :: rest => forwardLoop rest
  | RVal v :: rest =>
      if String.eqb (GetSchema v) SchemaPeer then
        match v with
        | PeerRecord _ id addrs => ChSend (mkAddrInfo id addrs) :: forwardLoop rest
        | UnknownRecord _ _ => forwardLoop rest
        end
      else forwardLoop rest
  end.

(** [defer close(ch)] then [defer iter.Close()]: on return the iterator is
    released first, then the channel is closed. *)
Definition readProviderResponses (it : list IterResult) : list ChanEvent :=
  forwardLoop it ++ [ChIterClose; ChClose].

(** [FindProvidersAsync(ctx, key, numResults)]: the client calls made and
    the events of the returned channel. *)
Definition FindProvidersAsync (c : Client) (key : string) (numResults : Z)
  : list ClientCall * list ChanEvent :=
  match ClientFindProviders c key with
  | Err _ => ([CallFindProviders key], [ChClose])
  | Ok resultsIter => ([CallFindProviders key], readProviderResponses resultsIter)
  end.

(** What the consumer receives from the channel, up to its close. *)
Fixpoint received (evs : list ChanEvent) : list AddrInfo :=
  match evs with
  | [] => []
  | ChSend ai :: rest => ai :: received rest
  | ChIterClose :: rest => received rest
  | ChClose :: _ => []
  end.

End ContentRouterClient.

(* ------------------------------------------------------------------------- *)
(** * Definitions following the spec's words, compared with the code below *)

(** Content negotiation as the spec states it (section 4.1). *)
Inductive NegotiationSpec : Type :=
| ChooseStrategy (h : handlerFunc) (limit : Z)
| RejectMalformed
| RejectUnsupported.

Definition acceptTokens (hs : list string) : list string := flat_map splitComma hs.

Definition tokenMalformed {IR} (d : Deps IR) (t : string) : bool :=
  match ParseMediaType d t with Err _ => true | Ok _ => false end.

Definition tokenIs {IR} (d : Deps IR) (ms : list string) (t : string) : bool :=
  match ParseMediaType d t with
  | Ok m => existsb (String.eqb m) ms
  | Err _ => false
  end.

Definition negotiationSpec {IR} (d : Deps IR) (s : server IR) (hs : list string)
  : NegotiationSpec :=
  match hs with
  | [] => ChooseStrategy HJSON (recordsLimit s)
  | _ :: _ =>
      let toks := acceptTokens hs in
      if existsb (tokenMalformed d) toks then RejectMalformed
      else if existsb (tokenIs d [mediaTypeNDJSON]) toks && negb (disableNDJSON s)
      then ChooseStrategy HNDJSON (streamingRecordsLimit s)
      else if existsb (tokenIs d [mediaTypeJSON; mediaTypeWildcard]) toks
      then ChooseStrategy HJSON (recordsLimit s)
      else RejectUnsupported
  end.

(** One streamed line: the record's JSON followed by a line terminator. *)
Definition ndjsonLine {IR} (d : Deps IR) (v : TypesRecord) : string :=
  match MarshalJSONBytes d (JRecord v) with
  | Ok b => b ++ newline
  | Err _ => ""
  end.

(** The streamed body for a list of records: one line per record. *)
Definition ndjsonBody {IR} (d : Deps IR) (vs : list TypesRecord) : string :=
  fold_right (fun v acc => ndjsonLine d v ++ acc) "" vs.

(** The peer-address records of a result sequence, in order. *)
Definition peerAddrInfo (v : TypesRecord) : list ContentRouterClient.AddrInfo :=
  match v with
  | PeerRecord sc id addrs =>
      if String.eqb sc SchemaPeer then [ContentRouterClient.mkAddrInfo id addrs] else []
  | UnknownRecord _ _ => []
  end.

Definition peerAddrRecords (it : list IterResult) : list ContentRouterClient.AddrInfo :=
  flat_map (fun r => match r with RVal v => peerAddrInfo v | RErr _ => [] end) it.

(* ------------------------------------------------------------------------- *)
(** * Handler options *)

(** The options a caller of [Handler] can pass ([Option] values built by the
    exported constructors). *)
Inductive Option : Type :=
| WithStreamingResultsDisabled
| WithRecordsLimit (limit : Z)
| WithStreamingRecordsLimit (limit : Z).

Definition applyOption {IR} (o : Option) (s : server IR) : server IR :=
  match o with
  | WithStreamingResultsDisabled =>
      {| svc := svc s; disableNDJSON := true; recordsLimit := recordsLimit s;
         streamingRecordsLimit := streamingRecordsLimit s |}
  | WithRecordsLimit limit =>
      {| svc := svc s; disableNDJSON := disableNDJSON s; recordsLimit := limit;
         streamingRecordsLimit := streamingRecordsLimit s |}
  | WithStreamingRecordsLimit limit =>
      {| svc := svc s; disableNDJSON := disableNDJSON s; recordsLimit := recordsLimit s;
         streamingRecordsLimit := limit |}
  end.

(** The server [Handler(svc, opts...)] builds: the defaults, then each option
    applied in order. *)
Definition HandlerServer {IR} (svc0 : ContentRouter IR) (opts : list Option) : server IR :=
  fold_left (fun s o => applyOption o s) opts
    {| svc := svc0; disableNDJSON := false; recordsLimit := DefaultRecordsLimit;
       streamingRecordsLimit := DefaultStreamingRecordsLimit |}.

(** The argument of the last [WithRecordsLimit] option, or the default. *)
Definition lastRecordsLimit (opts : list Option) : Z :=
  match find (fun o => match o with WithRecordsLimit _ => true | _ => false end) (rev opts) with
  | Some (WithRecordsLimit n) => n
  | _ => DefaultRecordsLimit
  end.

(** The argument of the last [WithStreamingRecordsLimit] option, or the default. *)
Definition lastStreamingRecordsLimit (opts : list Option) : Z :=
  match find (fun o => match o with WithStreamingRecordsLimit _ => true | _ => false end)
             (rev opts) with
  | Some (WithStreamingRecordsLimit n) => n
  | _ => DefaultStreamingRecordsLimit
  end.

(* ------------------------------------------------------------------------- *)
(** * Concrete collaborators, to run the handlers on sample requests *)

Module Demo.

(** [ipns.MaxRecordSize]: 10 KiB. *)
Definition ipnsMaxRecordSize : nat := 10 * 1024.

Fixpoint repeatChar (n : nat) (c : ascii) : string :=
  match n with
  | O => EmptyString
  | S n' => String c (repeatChar n' c)
  end.

(** An IPNS record is represented by its bytes; keys starting with [bafy]
    decode; a record validates when it starts with [signed:]. *)
Definition deps : Deps string := {|
  cidDecode := fun k =>
    if hasPrefix k "bafy" then Ok k else Err "invalid cid: selected encoding not supported";
  ParseMediaType := fun t => if contains t "/" then Ok t else Err "mime: no media type";
  NameFromCid := fun c => Ok ("k51" ++ c);
  MaxRecordSize := ipnsMaxRecordSize;
  UnmarshalRecord := fun raw => if String.eqb raw "" then Err "record is empty" else Ok raw;
  ValidateWithName := fun rec _ =>
    if hasPrefix rec "signed:" then None else Some "signature verification failed";
  MarshalRecord := fun rec => Ok rec;
  RecordTTL := fun _ => Ok 300%Z;
  MarshalJSONBytes := fun v =>
    match v with
    | JRecord r => Ok ("{" ++ GetSchema r ++ "}")
    | JProvidersResponse ps => Ok ("{Providers:" ++ formatInt (Z.of_nat (length ps)) ++ "}")
    end
|}.

Definition peer1 : TypesRecord := PeerRecord SchemaPeer "12D3KooWA" ["/ip4/10.0.0.1/tcp/4001"].
Definition peer2 : TypesRecord := PeerRecord SchemaPeer "12D3KooWB" [].
Definition other1 : TypesRecord := UnknownRecord "bitswap" "{}".

(** A backend answering every lookup with [it]. *)
Definition routerWith (it : list IterResult) : ContentRouter string := {|
  FindProviders := fun _ _ => Ok it;
  FindIPNSRecord := fun n => Ok ("signed:" ++ n);
  ProvideIPNSRecord := fun _ _ => None
|}.

Definition srvWith (it : list IterResult) : server string := {|
  svc := routerWith it;
  disableNDJSON := false;
  recordsLimit := DefaultRecordsLimit;
  streamingRecordsLimit := DefaultStreamingRecordsLimit
|}.

Definition req (key : string) (h : Header) (body : string) : Request :=
  mkReq key h (mkBody body None).

(** The same collaborators with a JSON marshaller that rejects opaque
    records, alone or inside a response. *)
Definition isOpaque (r : TypesRecord) : bool :=
  match r with UnknownRecord _ _ => true | PeerRecord _ _ _ => false end.

Definition depsStrictJSON : Deps string := {|
  cidDecode := cidDecode deps;
  ParseMediaType := ParseMediaType deps;
  NameFromCid := NameFromCid deps;
  MaxRecordSize := MaxRecordSize deps;
  UnmarshalRecord := UnmarshalRecord deps;
  ValidateWithName := ValidateWithName deps;
  MarshalRecord := MarshalRecord deps;
  RecordTTL := RecordTTL deps;
  MarshalJSONBytes := fun v =>
    match v with
    | JRecord r => if isOpaque r then Err "json: unsupported value" else MarshalJSONBytes deps v
    | JProvidersResponse ps =>
        if existsb isOpaque ps then Err "json: unsupported value" else MarshalJSONBytes deps v
    end
|}.

End Demo.

(* ------------------------------------------------------------------------- *)
(** * Sanity checks of the hash *)

Example xxh64_empty : XXH64.Sum64 "" = 17241709254077376921%Z.
Proof. vm_compute. reflexivity. Qed.

Example xxh64_a : XXH64.Sum64 "a" = 15154266338359012955%Z.
Proof. vm_compute. reflexivity. Qed.

Example xxh64_fox :
  XXH64.Sum64 "The quick brown fox jumps over the lazy dog" = 802816344064684476%Z.
Proof. vm_compute. reflexivity. Qed.


(* ------------------------------------------------------------------------- *)
(** * Helper lemmas *)

Lemma hasPrefix_nil (t : string) : hasPrefix t "" = true.
Proof. destruct t; reflexivity. Qed.

Lemma hasPrefix_app (p x : string) : hasPrefix (p ++ x) p = true.
Proof.
  induction p as [|c p IH]; simpl; [apply hasPrefix_nil|].
  rewrite Ascii.eqb_refl. exact IH.
Qed.

Lemma hasPrefix_substring (p t : string) (n : nat) :
  (String.length p <= n)%nat -> hasPrefix t p = true -> hasPrefix (substring 0 n t) p = true.
Proof.
  revert t n. induction p as [|c p IH]; intros t n Hlen Hp; [apply hasPrefix_nil|].
  destruct t as [|c' t]; [discriminate|].
  destruct n as [|n]; simpl in Hlen; [lia|].
  simpl in Hp |- *. apply andb_true_iff in Hp as [Hc Hp].
  rewrite Hc. apply IH; [lia|exact Hp].
Qed.

(** The cause written by [writeErr] starts with any short enough prefix. *)
Lemma truncateCause_prefix (p x : string) :
  (String.length p <= 1024)%nat -> hasPrefix (truncateCause (p ++ x)) p = true.
Proof.
  intros H. unfold truncateCause, prefixN.
  destruct (Nat.ltb 1024 _); [apply hasPrefix_substring; auto|]; apply hasPrefix_app.
Qed.

Lemma hasPrefix_contains (s p : string) : hasPrefix s p = true -> contains s p = true.
Proof.
  intros H. assert (E : contains s p = hasPrefix s p ||
    match s with EmptyString => false | String _ s' => contains s' p end)
    by (destruct s; reflexivity).
  rewrite E, H. reflexivity.
Qed.

Lemma writeErr_fresh (m : string) (code : Z) (cause : string) :
  finalStatus (writeErr m code cause emptyRW) = code /\
  rwBody (writeErr m code cause emptyRW) = truncateCause cause.
Proof. split; reflexivity. Qed.

Section Negotiation.

Context {IR : Type}.
Variable d : Deps IR.

Lemma scanAcceptTokens_spec (toks : list string) (n j : bool) :
  (existsb (tokenMalformed d) toks = true ->
     exists e, scanAcceptTokens d toks (n, j) = Err e) /\
  (existsb (tokenMalformed d) toks = false ->
     scanAcceptTokens d toks (n, j) =
       Ok (n || existsb (tokenIs d [mediaTypeNDJSON]) toks,
           j || existsb (tokenIs d [mediaTypeJSON; mediaTypeWildcard]) toks)).
Proof.
  revert n j. induction toks as [|t toks IH]; intros n j; simpl.
  - split; [discriminate|]. intros _. rewrite !orb_false_r. reflexivity.
  - destruct (ParseMediaType d t) as [mt|e] eqn:Hp.
    + assert (E1 : tokenMalformed d t = false)
        by (unfold tokenMalformed; rewrite Hp; reflexivity).
      assert (E2 : tokenIs d [mediaTypeNDJSON] t = String.eqb mt mediaTypeNDJSON)
        by (unfold tokenIs; rewrite Hp; simpl; apply orb_false_r).
      assert (E3 : tokenIs d [mediaTypeJSON; mediaTypeWildcard] t =
                   String.eqb mt mediaTypeJSON || String.eqb mt mediaTypeWildcard)
        by (unfold tokenIs; rewrite Hp; simpl; rewrite orb_false_r; reflexivity).
      rewrite E1, E2, E3. simpl orb.
      destruct (String.eqb mt mediaTypeJSON) eqn:Hj.
      { apply String.eqb_eq in Hj; subst mt. simpl.
        destruct (IH n true) as [IH1 IH2]. split; [exact IH1|].
        intros Hm. rewrite (IH2 Hm). rewrite !orb_true_r. reflexivity. }
      destruct (String.eqb mt mediaTypeWildcard) eqn:Hw.
      { apply String.eqb_eq in Hw; subst mt. simpl.
        destruct (IH n true) as [IH1 IH2]. split; [exact IH1|].
        intros Hm. rewrite (IH2 Hm). rewrite !orb_true_r. reflexivity. }
      simpl.
      destruct (String.eqb mt mediaTypeNDJSON) eqn:Hn; simpl.
      * destruct (IH true j) as [IH1 IH2]. split; [exact IH1|].
        intros Hm. rewrite (IH2 Hm). rewrite orb_true_r. reflexivity.
      * destruct (IH n j) as [IH1 IH2]. split; [exact IH1|].
        intros Hm. rewrite (IH2 Hm). reflexivity.
    + assert (E1 : tokenMalformed d t = true)
        by (unfold tokenMalformed; rewrite Hp; reflexivity).
      rewrite E1. simpl. split; [eauto|discriminate].
Qed.

Lemma scanAcceptHeaders_spec (hs : list string) (n j : bool) :
  (existsb (tokenMalformed d) (acceptTokens hs) = true ->
     exists e, scanAcceptHeaders d hs (n, j) = Err e) /\
  (existsb (tokenMalformed d) (acceptTokens hs) = false ->
     scanAcceptHeaders d hs (n, j) =
       Ok (n || existsb (tokenIs d [mediaTypeNDJSON]) (acceptTokens hs),
           j || existsb (tokenIs d [mediaTypeJSON; mediaTypeWildcard]) (acceptTokens hs))).
Proof.
  revert n j. induction hs as [|h hs IH]; intros n j; unfold acceptTokens in *; simpl.
  - split; [discriminate|]. intros _. rewrite !orb_false_r. reflexivity.
  - rewrite !existsb_app.
    destruct (scanAcceptTokens_spec (splitComma h) n j) as [T1 T2].
    destruct (existsb (tokenMalformed d) (splitComma h)) eqn:Hm; simpl.
    + destruct (T1 eq_refl) as [e He]. rewrite He. split; eauto; discriminate.
    + rewrite (T2 eq_refl).
      destruct (IH (n || existsb (tokenIs d [mediaTypeNDJSON]) (splitComma h))
                   (j || existsb (tokenIs d [mediaTypeJSON; mediaTypeWildcard]) (splitComma h)))
        as [IH1 IH2].
      split; [exact IH1|]. intros Hm'. rewrite (IH2 Hm'). rewrite !orb_assoc. reflexivity.
Qed.

End Negotiation.

Lemma negotiate_matches_spec {IR} (d : Deps IR) (s : server IR) (hs : list string) :
  match negotiationSpec d s hs with
  | ChooseStrategy h lim => negotiate d s hs = inl (h, lim)
  | RejectMalformed =>
      exists e, negotiate d s hs = inr (400%Z, "unable to parse Accept header: " ++ e)
  | RejectUnsupported => negotiate d s hs = inr (400%Z, "no supported content types")
  end.
Proof.
  destruct hs as [|h0 hs0]; [reflexivity|].
  unfold negotiationSpec, negotiate.
  destruct (scanAcceptHeaders_spec d (h0 :: hs0) false false) as [S1 S2].
  destruct (existsb (tokenMalformed d) (acceptTokens (h0 :: hs0))) eqn:Hm.
  - destruct (S1 eq_refl) as [e He]. rewrite He. eauto.
  - rewrite (S2 eq_refl). simpl orb.
    destruct (existsb (tokenIs d [mediaTypeNDJSON]) _ && negb (disableNDJSON s)); [reflexivity|].
    destruct (existsb (tokenIs d [mediaTypeJSON; mediaTypeWildcard]) _); reflexivity.
Qed.

(** C3: for a well-formed key, [findProviders] decides as the spec's content
    negotiation: no Accept header gives the bulk handler with the bulk limit; a
    malformed token anywhere gives 400 with no backend call; otherwise a
    streaming type (streaming enabled) gives the streaming handler with the
    streaming limit, else a JSON or wildcard type gives the bulk handler with
    the bulk limit, else 400 "no supported content types" with no backend call.
    In the chosen cases the backend is called once, with that limit, and the
    chosen handler drains its answer. *)
Theorem findProviders_content_negotiation {IR} (d : Deps IR) (s : server IR)
  (r : Request) (c : string) :
  cidDecode d (reqCid r) = Ok c ->
  let st := findProviders d s r initWorld in
  match negotiationSpec d s (headerValues (reqHeader r) "Accept") with
  | ChooseStrategy h lim =>
      st = (let st1 := emit (EvFindProviders c lim) initWorld in
            match FindProviders (svc s) c lim with
            | Err e => onRW (writeErr "FindProviders" 500 ("delegate error: " ++ e)) st1
            | Ok it => runHandler d h it st1
            end)
  | RejectMalformed =>
      finalStatus (wRW st) = 400%Z /\ wEvents st = [] /\
      hasPrefix (rwBody (wRW st)) "unable to parse Accept header: " = true
  | RejectUnsupported =>
      finalStatus (wRW st) = 400%Z /\ wEvents st = [] /\
      rwBody (wRW st) = "no supported content types"
  end.
Proof.
  intros Hc st. subst st. unfold findProviders. rewrite Hc.
  pose proof (negotiate_matches_spec d s (headerValues (reqHeader r) "Accept")) as N.
  destruct (negotiationSpec d s _).
  - rewrite N. reflexivity.
  - destruct N as [e He]. rewrite He. cbn [wRW wEvents onRW initWorld].
    split; [apply writeErr_fresh|]. split; [reflexivity|].
    rewrite (proj2 (writeErr_fresh _ _ _)).
    apply truncateCause_prefix. apply Nat.leb_le. reflexivity.
  - rewrite N. simpl. repeat split.
Qed.

Lemma str_app_assoc (a b c : string) : (a ++ b) ++ c = a ++ (b ++ c).
Proof. induction a as [|x a IH]; simpl; [reflexivity|]. rewrite IH. reflexivity. Qed.

Lemma str_app_nil_r (a : string) : a ++ "" = a.
Proof. induction a as [|x a IH]; simpl; [reflexivity|]. rewrite IH. reflexivity. Qed.

Lemma str_length_app (a b : string) :
  String.length (a ++ b) = (String.length a + String.length b)%nat.
Proof. induction a as [|x a IH]; simpl; [reflexivity|]. rewrite IH. reflexivity. Qed.

Lemma formatDigits_length (fuel : nat) (b n : Z) (acc : string) :
  (String.length (formatDigits fuel b n acc) <= fuel + String.length acc)%nat.
Proof.
  revert n acc. induction fuel as [|fuel IH]; intros n acc; simpl; [lia|].
  destruct (n / b =? 0)%Z; simpl; [lia|].
  specialize (IH (n / b)%Z (String (digitChar (n mod b)%Z) acc)). simpl in IH. lia.
Qed.

Lemma formatInt_length (n : Z) : (String.length (formatInt n) <= 65)%nat.
Proof.
  unfold formatInt, FormatUint.
  destruct (n <? 0)%Z.
  - pose proof (formatDigits_length 64 10 (- n) "") as H.
    rewrite str_length_app. change (String.length "-") with 1%nat.
    change (String.length "") with 0%nat in H. lia.
  - pose proof (formatDigits_length 64 10 n "") as H.
    change (String.length "") with 0%nat in H. lia.
Qed.

Section Discovery.

Context {IR : Type}.
Variable d : Deps IR.

Lemma collectProviders_vals (vs acc : list TypesRecord) (i : nat) :
  collectProviders (map RVal vs) i acc = Ok (acc ++ vs)%list.
Proof.
  revert i acc. induction vs as [|v vs IH]; intros i acc; simpl.
  - rewrite app_nil_r. reflexivity.
  - rewrite IH, <- app_assoc. reflexivity.
Qed.

Lemma collectProviders_err (pre : list TypesRecord) (e : string)
  (post : list IterResult) (acc : list TypesRecord) (i : nat) :
  collectProviders (map RVal pre ++ RErr e :: post) i acc =
  Err ("delegate error on result " ++ formatInt (Z.of_nat (i + length pre)) ++ ": " ++ e).
Proof.
  revert i acc. induction pre as [|v pre IH]; intros i acc; simpl.
  - rewrite Nat.add_0_r. reflexivity.
  - rewrite IH, Nat.add_succ_r. reflexivity.
Qed.

Lemma ndjsonLoop_until_error (pre : list TypesRecord) (e : string)
  (post : list IterResult) (w : ResponseWriter) (code : Z) :
  rwStatus w = Some code ->
  Forall (fun v => exists b, MarshalJSONBytes d (JRecord v) = Ok b) pre ->
  ndjsonLoop d (map RVal pre ++ RErr e :: post) w =
  mkRW (rwHeader w) (rwStatus w) (rwSentHeader w)
       (rwBody w ++ ndjsonBody d pre).
Proof.
  revert w. induction pre as [|v pre IH]; intros w Hw Hm; simpl.
  - destruct w; simpl. rewrite str_app_nil_r. reflexivity.
  - inversion Hm as [|? ? [b Hb] Hm']; subst.
    rewrite Hb. rewrite IH; cycle 1.
    { destruct w; simpl in *; subst; reflexivity. }
    { exact Hm'. }
    destruct w as [h st sh bd]; simpl in Hw; subst st; simpl.
    unfold ndjsonLine. rewrite Hb. rewrite !str_app_assoc. reflexivity.
Qed.

End Discovery.

(** C4: with a well-formed key and no Accept header, a backend sequence of N
    records [vs] that then exhausts gives status 200 and, as the body, the
    single JSON object [ProvidersResponse{Providers: vs}]: exactly the N
    records, in the backend's order. *)
Theorem findProviders_bulk_all_records {IR} (d : Deps IR) (s : server IR)
  (r : Request) (c : string) (vs : list TypesRecord) (b : string) :
  cidDecode d (reqCid r) = Ok c ->
  headerValues (reqHeader r) "Accept" = [] ->
  FindProviders (svc s) c (recordsLimit s) = Ok (map RVal vs) ->
  MarshalJSONBytes d (JProvidersResponse vs) = Ok b ->
  let st := findProviders d s r initWorld in
  finalStatus (wRW st) = 200%Z /\
  rwBody (wRW st) = b /\
  rwHeader (wRW st) = [("Content-Type", mediaTypeJSON)] /\
  wEvents st = [EvFindProviders c (recordsLimit s); EvIterClose].
Proof.
  intros Hc Ha Hf Hm st. subst st.
  unfold findProviders. rewrite Hc, Ha. cbn [negotiate]. rewrite Hf.
  unfold runHandler, findProvidersJSON. rewrite collectProviders_vals. simpl app.
  unfold writeJSONResult. rewrite Hm.
  destruct (String.eqb b "") eqn:Hb.
  - apply String.eqb_eq in Hb. subst b. repeat split.
  - repeat split.
Qed.

(** C5: in the bulk handler, an error item at 0-based position k after k
    valid records makes the response exactly [writeErr] with status 500 on
    the untouched writer (nothing was written before), with the cause
    "delegate error on result k: <error>"; the body starts with the index
    part whatever the length of the error text, and the items after the
    error do not matter. *)
Theorem findProviders_bulk_error_index {IR} (d : Deps IR) (s : server IR)
  (r : Request) (c : string) (lim : Z)
  (pre : list TypesRecord) (e : string) (post : list IterResult) :
  cidDecode d (reqCid r) = Ok c ->
  negotiate d s (headerValues (reqHeader r) "Accept") = inl (HJSON, lim) ->
  FindProviders (svc s) c lim = Ok (map RVal pre ++ RErr e :: post)%list ->
  let k := Z.of_nat (length pre) in
  let cause := "delegate error on result " ++ formatInt k ++ ": " ++ e in
  let st := findProviders d s r initWorld in
  wRW st = writeErr "FindProviders" 500 cause emptyRW /\
  finalStatus (wRW st) = 500%Z /\
  rwBody (wRW st) = truncateCause cause /\
  hasPrefix (rwBody (wRW st)) ("delegate error on result " ++ formatInt k ++ ": ") = true /\
  wEvents st = [EvFindProviders c lim; EvIterClose].
Proof.
  intros Hc Hn Hf k cause st. subst st.
  unfold findProviders. rewrite Hc, Hn. rewrite Hf.
  unfold runHandler, findProvidersJSON. rewrite collectProviders_err.
  cbn [wRW wEvents onRW emit initWorld app].
  split; [reflexivity|]. split; [reflexivity|]. split; [reflexivity|].
  split; [|reflexivity].
  unfold cause. rewrite <- (str_app_assoc (formatInt k)), <- str_app_assoc.
  apply truncateCause_prefix.
  rewrite !str_length_app. pose proof (formatInt_length k).
  change (String.length "delegate error on result ") with 25%nat.
  change (String.length ": ") with 2%nat. lia.
Qed.

(** C6: in the streaming handler, an error item after the records [pre]
    (each of which marshals) ends the stream silently: the committed status
    is 200 with the NDJSON content type, and the body is exactly one JSON
    line per record of [pre], nothing after. *)
Theorem findProviders_stream_error_silent {IR} (d : Deps IR) (s : server IR)
  (r : Request) (c : string) (lim : Z)
  (pre : list TypesRecord) (e : string) (post : list IterResult) :
  cidDecode d (reqCid r) = Ok c ->
  negotiate d s (headerValues (reqHeader r) "Accept") = inl (HNDJSON, lim) ->
  FindProviders (svc s) c lim = Ok (map RVal pre ++ RErr e :: post)%list ->
  Forall (fun v => exists b, MarshalJSONBytes d (JRecord v) = Ok b) pre ->
  let st := findProviders d s r initWorld in
  rwStatus (wRW st) = Some 200%Z /\
  rwSentHeader (wRW st) = [("Content-Type", mediaTypeNDJSON)] /\
  rwBody (wRW st) = ndjsonBody d pre /\
  wEvents st = [EvFindProviders c lim; EvIterClose].
Proof.
  intros Hc Hn Hf Hm st. subst st.
  unfold findProviders. rewrite Hc, Hn. rewrite Hf.
  unfold runHandler, findProvidersNDJSON.
  cbn [wRW wEvents onRW emit initWorld app].
  rewrite (ndjsonLoop_until_error d pre e post _ 200%Z); [|reflexivity|exact Hm].
  repeat split.
Qed.

(** C7: a path key that does not decode gives 400 and no backend call on the
    discovery endpoint, on the record GET (with an Accept header naming the
    record media type) and on the record PUT (with such a Content-Type). *)
Theorem malformed_key_rejected {IR} (d : Deps IR) (s : server IR)
  (r : Request) (e : string) :
  cidDecode d (reqCid r) = Err e ->
  (finalStatus (wRW (findProviders d s r initWorld)) = 400%Z /\
   wEvents (findProviders d s r initWorld) = []) /\
  (contains (headerGet (reqHeader r) "Accept") mediaTypeIPNSRecord = true ->
   finalStatus (wRW (getIPNSRecord d s r initWorld)) = 400%Z /\
   wEvents (getIPNSRecord d s r initWorld) = []) /\
  (contains (headerGet (reqHeader r) "Content-Type") mediaTypeIPNSRecord = true ->
   finalStatus (wRW (putIPNSRecord d s r initWorld)) = 400%Z /\
   wEvents (putIPNSRecord d s r initWorld) = []).
Proof.
  intros He.
  split; [|split]; [| intros Ha | intros Ha].
  - unfold findProviders. rewrite He. split; reflexivity.
  - unfold getIPNSRecord. rewrite Ha, He. split; reflexivity.
  - unfold putIPNSRecord. rewrite Ha, He. split; reflexivity.
Qed.

(** C8: a PUT whose body decodes into a record that fails validation against
    the name derived from the key gives 400 with the cause
    "provided record is invalid: <reason>" and never calls the store. *)
Theorem putIPNSRecord_invalid_not_stored {IR} (d : Deps IR) (s : server IR)
  (r : Request) (c name rawRecord e : string) (record : IR) :
  contains (headerGet (reqHeader r) "Content-Type") mediaTypeIPNSRecord = true ->
  cidDecode d (reqCid r) = Ok c ->
  NameFromCid d c = Ok name ->
  readAllLimited (MaxRecordSize d) (reqBody r) = Ok rawRecord ->
  UnmarshalRecord d rawRecord = Ok record ->
  ValidateWithName d record name = Some e ->
  let st := putIPNSRecord d s r initWorld in
  finalStatus (wRW st) = 400%Z /\
  rwBody (wRW st) = truncateCause ("provided record is invalid: " ++ e) /\
  hasPrefix (rwBody (wRW st)) "provided record is invalid: " = true /\
  wEvents st = [].
Proof.
  intros Hct Hc Hn Hr Hu Hv st. subst st.
  unfold putIPNSRecord. rewrite Hct, Hc, Hn, Hr, Hu, Hv.
  cbn [negb wRW wEvents onRW initWorld].
  split; [reflexivity|]. split; [reflexivity|]. split; [|reflexivity].
  apply truncateCause_prefix. apply Nat.leb_le. reflexivity.
Qed.

(** The body cap truncates: a PUT whose body is longer than
    [MaxRecordSize] behaves exactly as the same PUT whose body is its first
    [MaxRecordSize] bytes followed by end of stream; the read never fails
    for it, so the "provided record is too long" branch is not taken. *)
Lemma putIPNSRecord_oversize_truncated {IR} (d : Deps IR) (s : server IR)
  (r : Request) (st : World IR) :
  (MaxRecordSize d <= String.length (bodyBytes (reqBody r)))%nat ->
  readAllLimited (MaxRecordSize d) (reqBody r) =
    Ok (prefixN (MaxRecordSize d) (bodyBytes (reqBody r))) /\
  putIPNSRecord d s r st =
  putIPNSRecord d s
    (mkReq (reqCid r) (reqHeader r)
       (mkBody (prefixN (MaxRecordSize d) (bodyBytes (reqBody r))) None)) st.
Proof.
  intros Hlen.
  assert (Hr : readAllLimited (MaxRecordSize d) (reqBody r) =
               Ok (prefixN (MaxRecordSize d) (bodyBytes (reqBody r)))).
  { unfold readAllLimited. apply Nat.leb_le in Hlen. rewrite Hlen. reflexivity. }
  split; [exact Hr|].
  assert (Hlen' : String.length (prefixN (MaxRecordSize d) (bodyBytes (reqBody r)))
                  = MaxRecordSize d).
  { unfold prefixN. generalize (bodyBytes (reqBody r)) Hlen. clear.
    induction (MaxRecordSize d) as [|n IH]; intros t Ht; [destruct t; reflexivity|].
    destruct t as [|ch t]; simpl in *; [lia|]. rewrite IH; [reflexivity|lia]. }
  unfold putIPNSRecord at 1 2. simpl reqHeader. simpl reqCid.
  rewrite Hr. unfold readAllLimited at 1. simpl bodyBytes.
  rewrite Hlen', Nat.leb_refl.
  assert (Hp : forall n t, (String.length t = n) -> prefixN n t = t).
  { intros n t <-. unfold prefixN. clear. induction t as [|ch t IH]; simpl;
      [reflexivity|rewrite IH; reflexivity]. }
  rewrite (Hp _ _ Hlen'). reflexivity.
Qed.

(** C1 at a concrete request: a PUT with a well-formed key and a body of
    10247 bytes, over the 10240-byte cap, is not answered "too long": the
    handler reads its first 10240 bytes, the decoder accepts them and the
    record is handed to the store with status 200. *)
Theorem putIPNSRecord_oversize_body_stored :
  let body := "signed:" ++ Demo.repeatChar Demo.ipnsMaxRecordSize "x"%char in
  let r := Demo.req "bafykey" [("Content-Type", mediaTypeIPNSRecord)] body in
  let st := putIPNSRecord Demo.deps (Demo.srvWith []) r initWorld in
  Nat.ltb Demo.ipnsMaxRecordSize (String.length body) = true /\
  finalStatus (wRW st) = 200%Z /\
  rwBody (wRW st) = "" /\
  wEvents st = [EvProvideIPNSRecord "k51bafykey" (prefixN Demo.ipnsMaxRecordSize body)].
Proof. vm_compute. repeat split. Qed.

Module BridgeProofs.
Import ContentRouterClient.

Lemma forwardLoop_peerAddrRecords (it : list IterResult) :
  forwardLoop it = map ChSend (peerAddrRecords it).
Proof.
  induction it as [|[v|e] it IH]; simpl; [reflexivity| |exact IH].
  destruct v as [sc id addrs|sc raw]; simpl.
  - destruct (String.eqb sc SchemaPeer); simpl; rewrite IH; reflexivity.
  - destruct (String.eqb sc SchemaPeer); exact IH.
Qed.

Lemma received_sends (l : list AddrInfo) :
  received (map ChSend l ++ [ChIterClose; ChClose]) = l.
Proof. induction l as [|a l IH]; simpl; [reflexivity|]. rewrite IH. reflexivity. Qed.

(** C2 as stated fails: with the sequence [error; peer record], the
    channel still receives the peer record that follows the error item, so
    it is not closed after the error item with only the records before it. *)
Lemma FindProvidersAsync_error_item_not_closing :
  ~ (forall (c : Client) (key : string) (numResults : Z)
        (pre : list TypesRecord) (e : string) (post : list IterResult),
        ClientFindProviders c key = Ok (map RVal pre ++ RErr e :: post)%list ->
        received (snd (FindProvidersAsync c key numResults)) =
        peerAddrRecords (map RVal pre)).
Proof.
  intros H.
  specialize (H (mkClient (fun _ => Ok [RErr "boom"; RVal Demo.peer1]))
                "bafykey" 0%Z [] "boom" [RVal Demo.peer1] eq_refl).
  vm_compute in H. discriminate H.
Qed.

(** C2 as amended: when the lookup succeeds, the worker sends exactly the
    peer-address records of the whole sequence, in order; error items are
    skipped and do not end the forwarding; only at exhaustion is the
    iterator released and then the channel closed, once. *)
Theorem FindProvidersAsync_forwards_peer_records (c : Client) (key : string)
  (numResults : Z) (it : list IterResult) :
  ClientFindProviders c key = Ok it ->
  snd (FindProvidersAsync c key numResults) =
    (map ChSend (peerAddrRecords it) ++ [ChIterClose; ChClose])%list /\
  received (snd (FindProvidersAsync c key numResults)) = peerAddrRecords it.
Proof.
  intros Hc. unfold FindProvidersAsync. rewrite Hc. simpl.
  unfold readProviderResponses. rewrite forwardLoop_peerAddrRecords.
  split; [reflexivity|]. apply received_sends.
Qed.

(** C10: [numResults] plays no part: two calls differing only in it make the
    same single client call, [FindProviders(key)] with no limit, and yield
    the same channel contents. *)
Theorem FindProvidersAsync_ignores_numResults (c : Client) (key : string)
  (n1 n2 : Z) :
  FindProvidersAsync c key n1 = FindProvidersAsync c key n2 /\
  fst (FindProvidersAsync c key n1) = [CallFindProviders key].
Proof.
  unfold FindProvidersAsync.
  destruct (ClientFindProviders c key); split; reflexivity.
Qed.

End BridgeProofs.

Module EtagProofs.

Lemma log2_lt_64 (x : Z) : (0 <= x < 2 ^ 64)%Z -> (Z.log2 x < 64)%Z.
Proof.
  intros Hx. destruct (Z.eq_dec x 0) as [->|Hn]; [reflexivity|].
  apply Z.log2_lt_pow2; lia.
Qed.

Lemma lxor_range (a b : Z) :
  (0 <= a < 2 ^ 64)%Z -> (0 <= b < 2 ^ 64)%Z -> (0 <= Z.lxor a b < 2 ^ 64)%Z.
Proof.
  intros Ha Hb. split.
  - apply Z.lxor_nonneg. lia.
  - destruct (Z.eq_dec (Z.lxor a b) 0) as [->|Hn]; [lia|].
    assert (0 <= Z.lxor a b)%Z by (apply Z.lxor_nonneg; lia).
    apply Z.log2_lt_pow2; [lia|].
    eapply Z.le_lt_trans; [apply Z.log2_lxor; lia|].
    apply Z.max_lub_lt; apply log2_lt_64; assumption.
Qed.

Lemma mul_range (a b : Z) : (0 <= XXH64.mul a b < 2 ^ 64)%Z.
Proof. unfold XXH64.mul, XXH64.M64. apply Z.mod_pos_bound. lia. Qed.

Lemma shiftr_range (a n : Z) :
  (0 <= n)%Z -> (0 <= a < 2 ^ 64)%Z -> (0 <= Z.shiftr a n < 2 ^ 64)%Z.
Proof.
  intros Hn Ha. rewrite Z.shiftr_div_pow2 by exact Hn.
  assert (0 < 2 ^ n)%Z by (apply Z.pow_pos_nonneg; lia).
  split; [apply Z.div_pos; lia|].
  apply Z.le_lt_trans with a; [apply Z.div_le_upper_bound; nia|lia].
Qed.

Lemma avalanche_range (h : Z) : (0 <= XXH64.avalanche h < 2 ^ 64)%Z.
Proof.
  unfold XXH64.avalanche.
  pose proof (mul_range (Z.lxor (XXH64.mul (Z.lxor h (Z.shiftr h 33)) XXH64.P2)
     (Z.shiftr (XXH64.mul (Z.lxor h (Z.shiftr h 33)) XXH64.P2) 29)) XXH64.P3) as R.
  apply lxor_range; [exact R|]. apply shiftr_range; [lia|exact R].
Qed.

(** [xxhash.Sum64] returns a uint64. *)
Lemma Sum64_range (b : string) : (0 <= XXH64.Sum64 b < 2 ^ 64)%Z.
Proof.
  unfold XXH64.Sum64.
  repeat match goal with
         | |- context [match ?e with pair _ _ => _ end] => destruct e
         end;
  apply avalanche_range.
Qed.

Lemma repeatChar_length (n : nat) (c : ascii) : String.length (Demo.repeatChar n c) = n.
Proof. induction n as [|n IH]; simpl; [reflexivity|]. rewrite IH. reflexivity. Qed.

Lemma NoDup_map_injective {A B} (f : A -> B) (l : list A) :
  (forall x y, f x = f y -> x = y) -> NoDup l -> NoDup (map f l).
Proof.
  intros Hf Hl. induction Hl as [|x l Hx Hl IH]; simpl; constructor; [|exact IH].
  intros Hin. apply in_map_iff in Hin as (y & Hy & Hyl).
  apply Hf in Hy. subst y. contradiction.
Qed.

(** Pigeonhole: a uint64-valued function of byte strings is not injective. *)
Lemma Sum64_not_injective :
  ~ (forall a b, a <> b -> XXH64.Sum64 a <> XXH64.Sum64 b).
Proof.
  intros H.
  assert (Hinj : forall a b, XXH64.Sum64 a = XXH64.Sum64 b -> a = b).
  { intros a b Hab. destruct (string_dec a b) as [E|E]; [exact E|].
    exfalso. exact (H a b E Hab). }
  remember (Z.to_nat (2 ^ 64)) as M eqn:HM.
  set (l := map (fun k => Demo.repeatChar k "a"%char) (seq 0 (S M))).
  assert (Hl : NoDup l).
  { apply NoDup_map_injective; [|apply seq_NoDup].
    intros x y E. rewrite <- (repeatChar_length x "a"%char),
      <- (repeatChar_length y "a"%char), E. reflexivity. }
  assert (Hnd : NoDup (map XXH64.Sum64 l)) by (apply NoDup_map_injective; assumption).
  assert (Hincl : incl (map XXH64.Sum64 l) (map Z.of_nat (seq 0 M))).
  { intros y Hy. apply in_map_iff in Hy as (x & <- & _).
    pose proof (Sum64_range x) as R.
    apply in_map_iff. exists (Z.to_nat (XXH64.Sum64 x)). split; [lia|].
    apply in_seq. lia. }
  pose proof (NoDup_incl_length Hnd Hincl) as Hlen.
  unfold l in Hlen. rewrite !length_map, !length_seq in Hlen. lia.
Qed.

Lemma formatDigits_acc (fuel : nat) (b n : Z) (acc : string) :
  formatDigits fuel b n acc = formatDigits fuel b n "" ++ acc.
Proof.
  revert n acc. induction fuel as [|fuel IH]; intros n acc; [reflexivity|].
  cbn [formatDigits]. destruct (n / b =? 0)%Z; [reflexivity|].
  rewrite IH, (IH _ (String _ "")), str_app_assoc. reflexivity.
Qed.

Lemma str_snoc_inj (a b : string) (x y : ascii) :
  a ++ String x "" = b ++ String y "" -> a = b /\ x = y.
Proof.
  revert b. induction a as [|ca a IH]; intros b E; destruct b as [|cb b]; simpl in E.
  - inversion E. auto.
  - inversion E; subst. destruct b; discriminate.
  - inversion E; subst. destruct a; discriminate.
  - inversion E as [[E1 E2]]. subst cb. destruct (IH b E2) as [-> ->]. auto.
Qed.

Lemma digitChar_inj (d1 d2 : Z) :
  (0 <= d1 < 32)%Z -> (0 <= d2 < 32)%Z -> digitChar d1 = digitChar d2 -> d1 = d2.
Proof.
  intros H1 H2 E. apply (f_equal nat_of_ascii) in E. unfold digitChar in E.
  destruct (d1 <? 10)%Z eqn:L1, (d2 <? 10)%Z eqn:L2;
    rewrite ?Z.ltb_lt, ?Z.ltb_ge in L1, L2;
    rewrite !nat_ascii_embedding in E by lia; lia.
Qed.

Lemma formatDigits_nonempty (fuel : nat) (b n : Z) :
  fuel <> O -> formatDigits fuel b n "" <> "".
Proof.
  destruct fuel as [|fuel]; [tauto|]. intros _. cbn [formatDigits].
  destruct (n / b =? 0)%Z; [discriminate|].
  rewrite formatDigits_acc. destruct (formatDigits fuel b (n / b) ""); discriminate.
Qed.

Lemma formatDigits32_inj (fuel : nat) (n m : Z) :
  (0 <= n < 32 ^ Z.of_nat fuel)%Z -> (0 <= m < 32 ^ Z.of_nat fuel)%Z ->
  formatDigits fuel 32 n "" = formatDigits fuel 32 m "" -> n = m.
Proof.
  revert n m. induction fuel as [|fuel IH]; intros n m Hn Hm E; [simpl in *; lia|].
  rewrite Nat2Z.inj_succ, Z.pow_succ_r in Hn, Hm by lia.
  pose proof (Z.div_mod n 32 ltac:(lia)) as Dn. pose proof (Z.div_mod m 32 ltac:(lia)) as Dm.
  pose proof (Z.mod_pos_bound n 32 ltac:(lia)). pose proof (Z.mod_pos_bound m 32 ltac:(lia)).
  assert (Bn : (0 <= n / 32 < 32 ^ Z.of_nat fuel)%Z)
    by (split; [apply Z.div_pos|apply Z.div_lt_upper_bound]; lia).
  assert (Bm : (0 <= m / 32 < 32 ^ Z.of_nat fuel)%Z)
    by (split; [apply Z.div_pos|apply Z.div_lt_upper_bound]; lia).
  cbn [formatDigits] in E.
  destruct (n / 32 =? 0)%Z eqn:Zn, (m / 32 =? 0)%Z eqn:Zm.
  all: rewrite ?Z.eqb_eq, ?Z.eqb_neq in Zn, Zm.
  all: try rewrite (formatDigits_acc fuel 32 (n / 32) (String _ "")) in E.
  all: try rewrite (formatDigits_acc fuel 32 (m / 32) (String _ "")) in E.
  - injection E as E1.
    apply digitChar_inj in E1.
    lia. lia. lia.
  - exfalso. destruct fuel as [|fuel]; [simpl in Bm; lia|].
    apply (formatDigits_nonempty (S fuel) 32 (m / 32)); [discriminate|].
    apply (f_equal String.length) in E. rewrite str_length_app in E. cbn [String.length] in E.
    destruct (formatDigits (S fuel) 32 (m / 32) ""); [reflexivity|cbn [String.length] in E; lia].
  - exfalso. destruct fuel as [|fuel]; [simpl in Bn; lia|].
    apply (formatDigits_nonempty (S fuel) 32 (n / 32)); [discriminate|].
    apply (f_equal String.length) in E. rewrite str_length_app in E. cbn [String.length] in E.
    destruct (formatDigits (S fuel) 32 (n / 32) ""); [reflexivity|cbn [String.length] in E; lia].
  - apply str_snoc_inj in E as [E1 E2].
    apply digitChar_inj in E2; try lia.
    apply IH in E1; try assumption. lia.
Qed.

(** The Etag of two byte strings is the same exactly when their 64-bit
    xxhash values are. *)
Lemma recordEtag_eq_iff (a b : string) :
  recordEtag a = recordEtag b <-> XXH64.Sum64 a = XXH64.Sum64 b.
Proof.
  unfold recordEtag, FormatUint. split; [|intros ->; reflexivity].
  intros E. pose proof (Sum64_range a). pose proof (Sum64_range b).
  assert (P : (2 ^ 64 <= 32 ^ Z.of_nat 64)%Z) by (apply Z.leb_le; reflexivity).
  apply (formatDigits32_inj 64); [lia|lia|exact E].
Qed.

End EtagProofs.

(** C9 as stated fails: the Etag is a 64-bit hash printed in base 32, so
    two differing byte strings share an Etag (pigeonhole). *)
Lemma recordEtag_not_injective :
  ~ (forall a b : string, a <> b -> recordEtag a <> recordEtag b).
Proof.
  intros H. apply EtagProofs.Sum64_not_injective.
  intros a b Hab Hs. apply (H a b Hab). apply EtagProofs.recordEtag_eq_iff. exact Hs.
Qed.

(** C9 as amended: the record GET sets as Etag [recordEtag] of the canonical
    bytes it writes (so identical bytes always give the identical Etag); two
    byte strings get the same Etag exactly when their 64-bit xxhash values
    are equal, and some differing byte strings do share one. *)
Theorem getIPNSRecord_etag_of_bytes {IR} (d : Deps IR) (s : server IR)
  (r : Request) (c name rawRecord : string) (record : IR) :
  contains (headerGet (reqHeader r) "Accept") mediaTypeIPNSRecord = true ->
  cidDecode d (reqCid r) = Ok c ->
  NameFromCid d c = Ok name ->
  FindIPNSRecord (svc s) name = Ok record ->
  MarshalRecord d record = Ok rawRecord ->
  let st := getIPNSRecord d s r initWorld in
  headerGet (rwSentHeader (wRW st)) "Etag" = recordEtag rawRecord /\
  rwBody (wRW st) = rawRecord /\
  (forall a b, recordEtag a = recordEtag b <-> XXH64.Sum64 a = XXH64.Sum64 b) /\
  ~ (forall a b, a <> b -> XXH64.Sum64 a <> XXH64.Sum64 b).
Proof.
  intros Ha Hc Hn Hf Hm st. subst st.
  unfold getIPNSRecord. rewrite Ha, Hc, Hn. cbn [negb emit wRW wEvents initWorld].
  rewrite Hf, Hm.
  split; [|split; [reflexivity|split]].
  - destruct (RecordTTL d record); reflexivity.
  - apply EtagProofs.recordEtag_eq_iff.
  - apply EtagProofs.Sum64_not_injective.
Qed.

(* ------------------------------------------------------------------------- *)
(** * Further properties of the handlers, the options and the bridge *)

Lemma prefixN_length (n : nat) (t : string) :
  (n <= String.length t)%nat -> String.length (prefixN n t) = n.
Proof.
  unfold prefixN. revert t. induction n as [|n IH]; intros t Ht; [destruct t; reflexivity|].
  destruct t as [|ch t]; simpl in *; [lia|]. rewrite IH; [reflexivity|lia].
Qed.

Lemma hasPrefix_prefixN (n : nat) (t : string) : hasPrefix t (prefixN n t) = true.
Proof.
  unfold prefixN. revert t. induction n as [|n IH]; intros t; [destruct t; reflexivity|].
  destruct t as [|ch t]; simpl; [reflexivity|]. rewrite Ascii.eqb_refl. apply IH.
Qed.

Lemma hasPrefix_refl (t : string) : hasPrefix t t = true.
Proof. rewrite <- (str_app_nil_r t) at 1. apply hasPrefix_app. Qed.

Lemma truncateCause_props (cause : string) :
  (String.length (truncateCause cause) <= 1024)%nat /\
  hasPrefix cause (truncateCause cause) = true /\
  ((String.length cause <= 1024)%nat -> truncateCause cause = cause).
Proof.
  unfold truncateCause. destruct (Nat.ltb 1024 (String.length cause)) eqn:H.
  - apply Nat.ltb_lt in H. rewrite prefixN_length by lia.
    split; [lia|]. split; [apply hasPrefix_prefixN|lia].
  - apply Nat.ltb_ge in H. split; [exact H|]. split; [apply hasPrefix_refl|reflexivity].
Qed.

Lemma readAllLimited_ok (n : nat) (b : Body) (raw : string) :
  readAllLimited n b = Ok raw ->
  (String.length raw <= n)%nat /\ hasPrefix (bodyBytes b) raw = true.
Proof.
  unfold readAllLimited. destruct (Nat.leb n (String.length (bodyBytes b))) eqn:H.
  - intros E. injection E as <-. apply Nat.leb_le in H.
    rewrite prefixN_length by exact H. split; [lia|apply hasPrefix_prefixN].
  - apply Nat.leb_gt in H. destruct (bodyErr b); intros E; [discriminate|].
    injection E as <-. split; [lia|apply hasPrefix_refl].
Qed.

Definition isStreamingDisabledOpt (o : Option) : bool :=
  match o with WithStreamingResultsDisabled => true | _ => false end.

Lemma HandlerServer_fields {IR} (svc0 : ContentRouter IR) (opts : list Option) :
  svc (HandlerServer svc0 opts) = svc0 /\
  disableNDJSON (HandlerServer svc0 opts) = existsb isStreamingDisabledOpt opts /\
  recordsLimit (HandlerServer svc0 opts) = lastRecordsLimit opts /\
  streamingRecordsLimit (HandlerServer svc0 opts) = lastStreamingRecordsLimit opts.
Proof.
  induction opts as [|o opts IH] using rev_ind; [repeat split|].
  unfold HandlerServer in *. rewrite fold_left_app. cbn [fold_left].
  unfold lastRecordsLimit, lastStreamingRecordsLimit in *.
  rewrite rev_app_distr, existsb_app. cbn [rev app find existsb].
  destruct IH as (H1 & H2 & H3 & H4).
  destruct o; cbn [applyOption svc disableNDJSON recordsLimit streamingRecordsLimit
                   isStreamingDisabledOpt];
    rewrite ?H1, ?H2, ?H3, ?H4; rewrite ?orb_false_r, ?orb_true_r; repeat split.
Qed.

Lemma splitComma_aux_app (a b cur : string) :
  splitComma_aux (a ++ String ","%char b) cur = (splitComma_aux a cur ++ splitComma_aux b "")%list.
Proof.
  revert cur. induction a as [|ch a IH]; intros cur; [reflexivity|].
  simpl. destruct (Ascii.eqb ch ","%char); [rewrite IH; reflexivity|apply IH].
Qed.

Section AcceptMerge.

Context {IR : Type}.
Variable d : Deps IR.

Lemma scanAcceptTokens_app (l1 l2 : list string) (acc : bool * bool) :
  scanAcceptTokens d (l1 ++ l2) acc =
  match scanAcceptTokens d l1 acc with
  | Err e => Err e
  | Ok acc' => scanAcceptTokens d l2 acc'
  end.
Proof.
  revert acc. induction l1 as [|t l1 IH]; intros [n j]; [reflexivity|].
  simpl. destruct (ParseMediaType d t); [apply IH|reflexivity].
Qed.

Lemma scanAcceptHeaders_concat (hs : list string) (acc : bool * bool) :
  hs <> [] -> scanAcceptHeaders d hs acc = scanAcceptHeaders d [String.concat "," hs] acc.
Proof.
  revert acc. induction hs as [|h hs IH]; intros acc Hne; [congruence|].
  destruct hs as [|h2 hs]; [reflexivity|].
  change (String.concat "," (h :: h2 :: hs)) with (h ++ String ","%char (String.concat "," (h2 :: hs))).
  assert (E1 : forall x a, scanAcceptHeaders d [x] a =
                 match scanAcceptTokens d (splitComma x) a with
                 | Err e => Err e | Ok a' => Ok a' end)
    by (intros x a; simpl; destruct (scanAcceptTokens d (splitComma x) a); reflexivity).
  rewrite E1. unfold splitComma. rewrite splitComma_aux_app, scanAcceptTokens_app.
  change (scanAcceptHeaders d (h :: h2 :: hs) acc) with
    (match scanAcceptTokens d (splitComma h) acc with
     | Err e => Err e | Ok a' => scanAcceptHeaders d (h2 :: hs) a' end).
  fold (splitComma h).
  destruct (scanAcceptTokens d (splitComma h) acc) as [acc'|e]; [|reflexivity].
  rewrite (IH acc') by discriminate. rewrite E1. reflexivity.
Qed.

End AcceptMerge.



Lemma ndjsonLoop_prefix {IR} (d : Deps IR) (pre : list TypesRecord)
  (rest : list IterResult) (w : ResponseWriter) (code : Z) :
  rwStatus w = Some code ->
  Forall (fun v => exists b, MarshalJSONBytes d (JRecord v) = Ok b) pre ->
  ndjsonLoop d (map RVal pre ++ rest) w =
  ndjsonLoop d rest (mkRW (rwHeader w) (rwStatus w) (rwSentHeader w)
                          (rwBody w ++ ndjsonBody d pre)).
Proof.
  revert w. induction pre as [|v pre IH]; intros w Hw Hm; simpl.
  - destruct w; simpl. rewrite str_app_nil_r. reflexivity.
  - inversion Hm as [|? ? [b Hb] Hm']; subst.
    rewrite Hb. rewrite IH; cycle 1.
    { destruct w; simpl in *; subst; reflexivity. }
    { exact Hm'. }
    destruct w as [h st sh bd]; simpl in Hw; subst st; simpl.
    unfold ndjsonLine. rewrite Hb. rewrite !str_app_assoc. reflexivity.
Qed.

(** [writeErr] appends to the body exactly the cause cut to its first 1024
    bytes: at most 1024 bytes, a prefix of the cause, the whole cause when
    it is short enough. On an uncommitted writer the status is the given
    code; on a committed one the earlier status stays. *)
Theorem writeErr_cause_bounded (m : string) (code : Z) (cause : string)
  (w : ResponseWriter) :
  rwBody (writeErr m code cause w) = rwBody w ++ truncateCause cause /\
  (String.length (truncateCause cause) <= 1024)%nat /\
  hasPrefix cause (truncateCause cause) = true /\
  ((String.length cause <= 1024)%nat -> truncateCause cause = cause) /\
  (rwStatus w = None -> finalStatus (writeErr m code cause w) = code) /\
  (forall c0, rwStatus w = Some c0 -> rwStatus (writeErr m code cause w) = Some c0).
Proof.
  destruct (truncateCause_props cause) as (T1 & T2 & T3).
  split; [destruct w as [h [c0|] sh b]; reflexivity|].
  split; [exact T1|]. split; [exact T2|]. split; [exact T3|].
  split; [intros Hs | intros c0 Hs]; destruct w as [h st sh b]; simpl in Hs; subst st;
    reflexivity.
Qed.

(** [Handler] starts from the defaults and applies the options in order:
    NDJSON is disabled iff some option is [WithStreamingResultsDisabled], and
    each limit is the argument of the last option setting it (20 for the bulk
    limit and 0 for the streaming limit when none does). *)
Theorem Handler_options_applied {IR} (svc0 : ContentRouter IR) (opts : list Option) :
  svc (HandlerServer svc0 opts) = svc0 /\
  disableNDJSON (HandlerServer svc0 opts) = existsb isStreamingDisabledOpt opts /\
  recordsLimit (HandlerServer svc0 opts) = lastRecordsLimit opts /\
  streamingRecordsLimit (HandlerServer svc0 opts) = lastStreamingRecordsLimit opts.
Proof. apply HandlerServer_fields. Qed.

(** With [WithStreamingResultsDisabled] among the options, every accepted
    request of the discovery endpoint is served by the bulk handler with the
    bulk limit, even when its Accept header asks for NDJSON. *)
Theorem Handler_streaming_disabled_bulk_only {IR} (d : Deps IR)
  (svc0 : ContentRouter IR) (opts : list Option) :
  In WithStreamingResultsDisabled opts ->
  forall (hs : list string) (h : handlerFunc) (lim : Z),
  negotiate d (HandlerServer svc0 opts) hs = inl (h, lim) ->
  h = HJSON /\ lim = lastRecordsLimit opts.
Proof.
  intros Hin hs h lim.
  destruct (HandlerServer_fields svc0 opts) as (_ & Hd & Hr & _).
  assert (Hdis : disableNDJSON (HandlerServer svc0 opts) = true).
  { rewrite Hd. apply existsb_exists. exists WithStreamingResultsDisabled. auto. }
  unfold negotiate. rewrite Hdis, <- Hr.
  destruct hs as [|h0 hs]; [intros E; injection E as <- <-; auto|].
  destruct (scanAcceptHeaders d _ _) as [[n j]|e]; [|discriminate].
  rewrite andb_false_r. destruct j; [|discriminate].
  intros E; injection E as <- <-; auto.
Qed.

(** Several Accept header lines are read as one line joining them with
    commas: the discovery endpoint answers both requests identically. *)
Theorem findProviders_accept_lines_joined {IR} (d : Deps IR) (s : server IR)
  (r r' : Request) (st : World IR) :
  reqCid r' = reqCid r ->
  headerValues (reqHeader r) "Accept" <> [] ->
  headerValues (reqHeader r') "Accept" = [String.concat "," (headerValues (reqHeader r) "Accept")] ->
  findProviders d s r' st = findProviders d s r st.
Proof.
  intros Hc Hne Hj. unfold findProviders. rewrite Hc, Hj.
  assert (N : negotiate d s (headerValues (reqHeader r) "Accept") =
              negotiate d s [String.concat "," (headerValues (reqHeader r) "Accept")]).
  { unfold negotiate. destruct (headerValues (reqHeader r) "Accept") as [|h hs];
      [congruence|]. rewrite (scanAcceptHeaders_concat d (h :: hs)) by exact Hne.
    reflexivity. }
  rewrite N. reflexivity.
Qed.


(** In the bulk handler, when the collected records cannot be marshalled the
    answer is 500 "marshaling response: <err>", sent with the JSON content
    type already added; the iterator is still released. *)
Theorem findProviders_bulk_marshal_error {IR} (d : Deps IR) (s : server IR)
  (r : Request) (c : string) (lim : Z) (vs : list TypesRecord) (e : string) :
  cidDecode d (reqCid r) = Ok c ->
  negotiate d s (headerValues (reqHeader r) "Accept") = inl (HJSON, lim) ->
  FindProviders (svc s) c lim = Ok (map RVal vs) ->
  MarshalJSONBytes d (JProvidersResponse vs) = Err e ->
  let st := findProviders d s r initWorld in
  wRW st = writeErr "FindProviders" 500 ("marshaling response: " ++ e)
             (headerAdd "Content-Type" mediaTypeJSON emptyRW) /\
  finalStatus (wRW st) = 500%Z /\
  rwSentHeader (wRW st) = [("Content-Type", mediaTypeJSON)] /\
  wEvents st = [EvFindProviders c lim; EvIterClose].
Proof.
  intros Hc Hn Hf Hm st. subst st.
  unfold findProviders. rewrite Hc, Hn, Hf.
  unfold runHandler, findProvidersJSON. rewrite collectProviders_vals. simpl app.
  unfold writeJSONResult. rewrite Hm. repeat split.
Qed.

(** In the streaming handler, the records [pre] that marshal are streamed one
    line each; the stream ends silently, status 200, when the iterator is
    exhausted or at the first record that fails to marshal, whatever
    follows it. *)
Theorem findProviders_stream_body {IR} (d : Deps IR) (s : server IR)
  (r : Request) (c : string) (lim : Z) (pre : list TypesRecord) (rest : list IterResult) :
  cidDecode d (reqCid r) = Ok c ->
  negotiate d s (headerValues (reqHeader r) "Accept") = inl (HNDJSON, lim) ->
  FindProviders (svc s) c lim = Ok (map RVal pre ++ rest)%list ->
  Forall (fun v => exists b, MarshalJSONBytes d (JRecord v) = Ok b) pre ->
  (rest = [] \/
   exists v e post, rest = RVal v :: post /\ MarshalJSONBytes d (JRecord v) = Err e) ->
  let st := findProviders d s r initWorld in
  rwStatus (wRW st) = Some 200%Z /\
  rwSentHeader (wRW st) = [("Content-Type", mediaTypeNDJSON)] /\
  rwBody (wRW st) = ndjsonBody d pre /\
  wEvents st = [EvFindProviders c lim; EvIterClose].
Proof.
  intros Hc Hn Hf Hm Hrest st. subst st.
  unfold findProviders. rewrite Hc, Hn, Hf.
  unfold runHandler, findProvidersNDJSON.
  cbn [wRW wEvents onRW emit initWorld app].
  rewrite (ndjsonLoop_prefix d pre rest _ 200%Z); [|reflexivity|exact Hm].
  destruct Hrest as [->|(v & e & post & -> & Hv)]; cbn [ndjsonLoop];
    [|rewrite Hv]; repeat split.
Qed.

(** The record GET checks only the first Accept line, by substring: when
    there is none, or the first does not contain the record media type, the
    answer is 406 and the backend is not called, whatever later lines say. *)
Theorem getIPNSRecord_accept_first_line {IR} (d : Deps IR) (s : server IR) (r : Request) :
  (forall h1 rest, headerValues (reqHeader r) "Accept" = h1 :: rest ->
     contains h1 mediaTypeIPNSRecord = false) ->
  let st := getIPNSRecord d s r initWorld in
  wRW st = writeErr "GetIPNSRecord" 406
             "content type in 'Accept' header is missing or not supported" emptyRW /\
  wEvents st = [].
Proof.
  intros H st. subst st. unfold getIPNSRecord, headerGet.
  destruct (headerValues (reqHeader r) "Accept") as [|h1 rest] eqn:E.
  - split; reflexivity.
  - rewrite (H h1 rest eq_refl). split; reflexivity.
Qed.

(** The record PUT checks only the first Content-Type line, by substring:
    when there is none, or the first does not contain the record media
    type, the answer is 406 and nothing is read or stored. *)
Theorem putIPNSRecord_content_type_first_line {IR} (d : Deps IR) (s : server IR)
  (r : Request) :
  (forall h1 rest, headerValues (reqHeader r) "Content-Type" = h1 :: rest ->
     contains h1 mediaTypeIPNSRecord = false) ->
  let st := putIPNSRecord d s r initWorld in
  wRW st = writeErr "PutIPNSRecord" 406
             "content type in 'Content-Type' header is missing or not supported" emptyRW /\
  wEvents st = [].
Proof.
  intros H st. subst st. unfold putIPNSRecord, headerGet.
  destruct (headerValues (reqHeader r) "Content-Type") as [|h1 rest] eqn:E.
  - split; reflexivity.
  - rewrite (H h1 rest eq_refl). split; reflexivity.
Qed.

(** A successful record GET answers 200 with the marshalled record as the
    body and exactly three headers: Cache-Control "max-age=<ttl seconds>"
    (or "max-age=60" when the TTL cannot be read), the Etag of the bytes,
    and the record media type; the backend is asked once, for the name
    derived from the key. *)
Theorem getIPNSRecord_success {IR} (d : Deps IR) (s : server IR) (r : Request)
  (c name : string) (record : IR) (rawRecord : string) :
  contains (headerGet (reqHeader r) "Accept") mediaTypeIPNSRecord = true ->
  cidDecode d (reqCid r) = Ok c ->
  NameFromCid d c = Ok name ->
  FindIPNSRecord (svc s) name = Ok record ->
  MarshalRecord d record = Ok rawRecord ->
  let cacheControl :=
    match RecordTTL d record with
    | Ok secs => "max-age=" ++ formatInt secs
    | Err _ => "max-age=60"
    end in
  let st := getIPNSRecord d s r initWorld in
  finalStatus (wRW st) = 200%Z /\
  rwBody (wRW st) = rawRecord /\
  rwSentHeader (wRW st) =
    [("Cache-Control", cacheControl); ("Etag", recordEtag rawRecord);
     ("Content-Type", mediaTypeIPNSRecord)] /\
  wEvents st = [EvFindIPNSRecord name].
Proof.
  intros Ha Hc Hn Hf Hm cc st. subst st cc.
  unfold getIPNSRecord. rewrite Ha, Hc, Hn, Hf, Hm. cbn [negb].
  repeat split.
Qed.

(** The failures of a record GET after the Accept check and key decoding:
    a key that names no IPNS name gives 400 with no backend call; a backend
    error gives 500 "delegate error: <err>"; a record that cannot be
    marshalled gives 500 with the marshaller's error; none sets a header. *)
Theorem getIPNSRecord_failures {IR} (d : Deps IR) (s : server IR) (r : Request)
  (c : string) :
  contains (headerGet (reqHeader r) "Accept") mediaTypeIPNSRecord = true ->
  cidDecode d (reqCid r) = Ok c ->
  let st := getIPNSRecord d s r initWorld in
  (forall e, NameFromCid d c = Err e ->
     wRW st = writeErr "GetIPNSRecord" 400 ("peer ID CID is not valid: " ++ e) emptyRW /\
     wEvents st = []) /\
  (forall name e, NameFromCid d c = Ok name -> FindIPNSRecord (svc s) name = Err e ->
     wRW st = writeErr "GetIPNSRecord" 500 ("delegate error: " ++ e) emptyRW /\
     wEvents st = [EvFindIPNSRecord name]) /\
  (forall name record e, NameFromCid d c = Ok name ->
     FindIPNSRecord (svc s) name = Ok record -> MarshalRecord d record = Err e ->
     wRW st = writeErr "GetIPNSRecord" 500 e emptyRW /\
     wEvents st = [EvFindIPNSRecord name]).
Proof.
  intros Ha Hc st. subst st. unfold getIPNSRecord. rewrite Ha, Hc. cbn [negb].
  split; [|split].
  - intros e He. rewrite He. split; reflexivity.
  - intros name e Hn Hf. rewrite Hn, Hf. split; reflexivity.
  - intros name record e Hn Hf Hm. rewrite Hn, Hf, Hm. split; reflexivity.
Qed.

(** A record PUT that passes every check calls the store once with the name
    and the decoded record; if the store accepts, the answer is 200 with an
    empty body and no header; if it fails, 500 "delegate error: <err>". *)
Theorem putIPNSRecord_store_outcome {IR} (d : Deps IR) (s : server IR) (r : Request)
  (c name rawRecord : string) (record : IR) :
  contains (headerGet (reqHeader r) "Content-Type") mediaTypeIPNSRecord = true ->
  cidDecode d (reqCid r) = Ok c ->
  NameFromCid d c = Ok name ->
  readAllLimited (MaxRecordSize d) (reqBody r) = Ok rawRecord ->
  UnmarshalRecord d rawRecord = Ok record ->
  ValidateWithName d record name = None ->
  let st := putIPNSRecord d s r initWorld in
  wEvents st = [EvProvideIPNSRecord name record] /\
  (ProvideIPNSRecord (svc s) name record = None ->
     finalStatus (wRW st) = 200%Z /\ rwBody (wRW st) = "" /\ rwSentHeader (wRW st) = []) /\
  (forall e, ProvideIPNSRecord (svc s) name record = Some e ->
     wRW st = writeErr "PutIPNSRecord" 500 ("delegate error: " ++ e) emptyRW).
Proof.
  intros Hct Hc Hn Hr Hu Hv st. subst st.
  unfold putIPNSRecord. rewrite Hct, Hc, Hn, Hr, Hu, Hv. cbn [negb].
  split; [destruct (ProvideIPNSRecord (svc s) name record); reflexivity|].
  split; [intros Hp; rewrite Hp; repeat split|intros e Hp; rewrite Hp; reflexivity].
Qed.

(** The store only ever receives, once per request, a record that was
    decoded from at most [MaxRecordSize] leading bytes of the body and that
    validated against the name derived from the key, under that name. *)
Theorem putIPNSRecord_stores_only_validated {IR} (d : Deps IR) (s : server IR)
  (r : Request) (n : string) (rec : IR) :
  In (EvProvideIPNSRecord n rec) (wEvents (putIPNSRecord d s r initWorld)) ->
  contains (headerGet (reqHeader r) "Content-Type") mediaTypeIPNSRecord = true /\
  (exists c rawRecord,
     cidDecode d (reqCid r) = Ok c /\ NameFromCid d c = Ok n /\
     readAllLimited (MaxRecordSize d) (reqBody r) = Ok rawRecord /\
     (String.length rawRecord <= MaxRecordSize d)%nat /\
     hasPrefix (bodyBytes (reqBody r)) rawRecord = true /\
     UnmarshalRecord d rawRecord = Ok rec /\ ValidateWithName d rec n = None) /\
  wEvents (putIPNSRecord d s r initWorld) = [EvProvideIPNSRecord n rec].
Proof.
  unfold putIPNSRecord.
  destruct (contains (headerGet (reqHeader r) "Content-Type") mediaTypeIPNSRecord) eqn:Hct;
    [|intros []].
  cbn [negb].
  destruct (cidDecode d (reqCid r)) as [c|e] eqn:Hc; [|intros []].
  destruct (NameFromCid d c) as [name|e] eqn:Hn; [|intros []].
  destruct (readAllLimited (MaxRecordSize d) (reqBody r)) as [raw|e] eqn:Hr; [|intros []].
  destruct (UnmarshalRecord d raw) as [record|e] eqn:Hu; [|intros []].
  destruct (ValidateWithName d record name) as [e|] eqn:Hv; [intros []|].
  assert (Hev : wEvents (match ProvideIPNSRecord (svc s) name record with
                         | Some e => onRW (writeErr "PutIPNSRecord" 500 ("delegate error: " ++ e))
                                       (emit (EvProvideIPNSRecord name record) initWorld)
                         | None => onRW (writeHeader 200)
                                     (emit (EvProvideIPNSRecord name record) initWorld)
                         end) = [EvProvideIPNSRecord name record])
    by (destruct (ProvideIPNSRecord (svc s) name record); reflexivity).
  rewrite Hev. intros [E|[]]. injection E as <- <-.
  destruct (readAllLimited_ok _ _ _ Hr) as [Hl Hp].
  split; [reflexivity|]. split; [|reflexivity].
  exists c, raw. repeat split; assumption.
Qed.

(** The rejections of a record PUT after the Content-Type check and key
    decoding, none of which stores anything: a key naming no IPNS name gives
    400; a body shorter than [MaxRecordSize] whose read fails gives 400
    "provided record is too long: <err>"; bytes that do not decode give 400
    "provided record is invalid: <err>". *)
Theorem putIPNSRecord_rejections {IR} (d : Deps IR) (s : server IR) (r : Request)
  (c : string) :
  contains (headerGet (reqHeader r) "Content-Type") mediaTypeIPNSRecord = true ->
  cidDecode d (reqCid r) = Ok c ->
  let st := putIPNSRecord d s r initWorld in
  (forall e, NameFromCid d c = Err e ->
     wRW st = writeErr "PutIPNSRecord" 400 ("peer ID CID is not valid: " ++ e) emptyRW /\
     wEvents st = []) /\
  (forall name e, NameFromCid d c = Ok name ->
     (String.length (bodyBytes (reqBody r)) < MaxRecordSize d)%nat ->
     bodyErr (reqBody r) = Some e ->
     wRW st = writeErr "PutIPNSRecord" 400 ("provided record is too long: " ++ e) emptyRW /\
     wEvents st = []) /\
  (forall name rawRecord e, NameFromCid d c = Ok name ->
     readAllLimited (MaxRecordSize d) (reqBody r) = Ok rawRecord ->
     UnmarshalRecord d rawRecord = Err e ->
     wRW st = writeErr "PutIPNSRecord" 400 ("provided record is invalid: " ++ e) emptyRW /\
     wEvents st = []).
Proof.
  intros Hct Hc st. subst st. unfold putIPNSRecord. rewrite Hct, Hc. cbn [negb].
  split; [|split].
  - intros e He. rewrite He. split; reflexivity.
  - intros name e Hn Hlen He. rewrite Hn.
    assert (Hr : readAllLimited (MaxRecordSize d) (reqBody r) = Err e).
    { unfold readAllLimited. apply Nat.leb_gt in Hlen. rewrite Hlen, He. reflexivity. }
    rewrite Hr. split; reflexivity.
  - intros name raw e Hn Hr Hu. rewrite Hn, Hr, Hu. split; reflexivity.
Qed.

Module BridgeExtra.
Import ContentRouterClient.

(** On every path the bridge's channel is closed exactly once, as its last
    event; when the lookup fails it is closed at once, having carried
    nothing, and no iterator is released. *)
Theorem FindProvidersAsync_closed_once (c : Client) (key : string) (numResults : Z) :
  exists pre,
    snd (FindProvidersAsync c key numResults) = (pre ++ [ChClose])%list /\
    ~ In ChClose pre /\
    (forall e, ClientFindProviders c key = Err e ->
       pre = [] /\ received (snd (FindProvidersAsync c key numResults)) = []).
Proof.
  unfold FindProvidersAsync.
  destruct (ClientFindProviders c key) as [it|e0] eqn:Hc.
  - exists (forwardLoop it ++ [ChIterClose])%list. simpl.
    unfold readProviderResponses. rewrite <- app_assoc. split; [reflexivity|].
    split; [|intros e He; discriminate].
    rewrite BridgeProofs.forwardLoop_peerAddrRecords, in_app_iff, in_map_iff.
    intros [[x [Hx _]]|[Hx|[]]]; discriminate.
  - exists []. simpl. split; [reflexivity|]. split; [intros []|]. intros _ _. split; reflexivity.
Qed.

End BridgeExtra.

(* ------------------------------------------------------------------------- *)
(** * Witnesses: the theorems applied at concrete requests *)

Lemma findProviders_content_negotiation_witness :
  let r := Demo.req "bafykey"
             [("Accept", "application/json,application/x-ndjson")] "" in
  let s := Demo.srvWith [RVal Demo.peer1] in
  cidDecode Demo.deps (reqCid r) = Ok "bafykey" /\
  (let st := findProviders Demo.deps s r initWorld in
   match negotiationSpec Demo.deps s (headerValues (reqHeader r) "Accept") with
   | ChooseStrategy h lim =>
       st = (let st1 := emit (EvFindProviders "bafykey" lim) initWorld in
             match FindProviders (svc s) "bafykey" lim with
             | Err e => onRW (writeErr "FindProviders" 500 ("delegate error: " ++ e)) st1
             | Ok it => runHandler Demo.deps h it st1
             end)
   | RejectMalformed =>
       finalStatus (wRW st) = 400%Z /\ wEvents st = [] /\
       hasPrefix (rwBody (wRW st)) "unable to parse Accept header: " = true
   | RejectUnsupported =>
       finalStatus (wRW st) = 400%Z /\ wEvents st = [] /\
       rwBody (wRW st) = "no supported content types"
   end).
Proof.
  intros r s. split; [reflexivity|].
  exact (findProviders_content_negotiation Demo.deps s r "bafykey" eq_refl).
Defined.

Lemma findProviders_bulk_all_records_witness :
  let r := Demo.req "bafykey" [] "" in
  let vs := [Demo.peer1; Demo.other1; Demo.peer2] in
  let s := Demo.srvWith (map RVal vs) in
  cidDecode Demo.deps (reqCid r) = Ok "bafykey" /\
  headerValues (reqHeader r) "Accept" = [] /\
  FindProviders (svc s) "bafykey" (recordsLimit s) = Ok (map RVal vs) /\
  MarshalJSONBytes Demo.deps (JProvidersResponse vs) = Ok "{Providers:3}" /\
  (let st := findProviders Demo.deps s r initWorld in
   finalStatus (wRW st) = 200%Z /\
   rwBody (wRW st) = "{Providers:3}" /\
   rwHeader (wRW st) = [("Content-Type", mediaTypeJSON)] /\
   wEvents st = [EvFindProviders "bafykey" (recordsLimit s); EvIterClose]).
Proof.
  intros r vs s.
  assert (Hm : MarshalJSONBytes Demo.deps (JProvidersResponse vs) = Ok "{Providers:3}")
    by (vm_compute; reflexivity).
  split; [reflexivity|]. split; [reflexivity|]. split; [reflexivity|]. split; [exact Hm|].
  exact (findProviders_bulk_all_records Demo.deps s r "bafykey" vs "{Providers:3}"
           eq_refl eq_refl eq_refl Hm).
Defined.

Lemma findProviders_bulk_error_index_witness :
  let r := Demo.req "bafykey" [] "" in
  let s := Demo.srvWith [RVal Demo.peer1; RErr "backend timeout"; RVal Demo.peer2] in
  cidDecode Demo.deps (reqCid r) = Ok "bafykey" /\
  negotiate Demo.deps s (headerValues (reqHeader r) "Accept") = inl (HJSON, 20%Z) /\
  FindProviders (svc s) "bafykey" 20 =
    Ok (map RVal [Demo.peer1] ++ RErr "backend timeout" :: [RVal Demo.peer2])%list /\
  (let k := Z.of_nat (length [Demo.peer1]) in
   let cause := "delegate error on result " ++ formatInt k ++ ": " ++ "backend timeout" in
   let st := findProviders Demo.deps s r initWorld in
   wRW st = writeErr "FindProviders" 500 cause emptyRW /\
   finalStatus (wRW st) = 500%Z /\
   rwBody (wRW st) = truncateCause cause /\
   hasPrefix (rwBody (wRW st)) ("delegate error on result " ++ formatInt k ++ ": ") = true /\
   wEvents st = [EvFindProviders "bafykey" 20; EvIterClose]).
Proof.
  intros r s. split; [reflexivity|]. split; [reflexivity|]. split; [reflexivity|].
  exact (findProviders_bulk_error_index Demo.deps s r "bafykey" 20 [Demo.peer1]
           "backend timeout" [RVal Demo.peer2] eq_refl eq_refl eq_refl).
Defined.

Lemma findProviders_stream_error_silent_witness :
  let r := Demo.req "bafykey" [("Accept", mediaTypeNDJSON)] "" in
  let s := Demo.srvWith [RVal Demo.peer1; RVal Demo.other1; RErr "backend timeout";
                         RVal Demo.peer2] in
  cidDecode Demo.deps (reqCid r) = Ok "bafykey" /\
  negotiate Demo.deps s (headerValues (reqHeader r) "Accept") = inl (HNDJSON, 0%Z) /\
  FindProviders (svc s) "bafykey" 0 =
    Ok (map RVal [Demo.peer1; Demo.other1] ++ RErr "backend timeout" :: [RVal Demo.peer2])%list /\
  Forall (fun v => exists b, MarshalJSONBytes Demo.deps (JRecord v) = Ok b)
    [Demo.peer1; Demo.other1] /\
  (let st := findProviders Demo.deps s r initWorld in
   rwStatus (wRW st) = Some 200%Z /\
   rwSentHeader (wRW st) = [("Content-Type", mediaTypeNDJSON)] /\
   rwBody (wRW st) = ndjsonBody Demo.deps [Demo.peer1; Demo.other1] /\
   wEvents st = [EvFindProviders "bafykey" 0; EvIterClose]).
Proof.
  intros r s.
  assert (Hm : Forall (fun v => exists b, MarshalJSONBytes Demo.deps (JRecord v) = Ok b)
                 [Demo.peer1; Demo.other1])
    by (repeat constructor; eexists; reflexivity).
  split; [reflexivity|]. split; [reflexivity|]. split; [reflexivity|]. split; [exact Hm|].
  exact (findProviders_stream_error_silent Demo.deps s r "bafykey" 0 [Demo.peer1; Demo.other1]
           "backend timeout" [RVal Demo.peer2] eq_refl eq_refl eq_refl Hm).
Defined.

Lemma malformed_key_rejected_witness :
  let r := Demo.req "not-a-cid"
             [("Accept", mediaTypeIPNSRecord); ("Content-Type", mediaTypeIPNSRecord)] "" in
  let s := Demo.srvWith [RVal Demo.peer1] in
  cidDecode Demo.deps (reqCid r) = Err "invalid cid: selected encoding not supported" /\
  ((finalStatus (wRW (findProviders Demo.deps s r initWorld)) = 400%Z /\
    wEvents (findProviders Demo.deps s r initWorld) = []) /\
   (contains (headerGet (reqHeader r) "Accept") mediaTypeIPNSRecord = true ->
    finalStatus (wRW (getIPNSRecord Demo.deps s r initWorld)) = 400%Z /\
    wEvents (getIPNSRecord Demo.deps s r initWorld) = []) /\
   (contains (headerGet (reqHeader r) "Content-Type") mediaTypeIPNSRecord = true ->
    finalStatus (wRW (putIPNSRecord Demo.deps s r initWorld)) = 400%Z /\
    wEvents (putIPNSRecord Demo.deps s r initWorld) = [])).
Proof.
  intros r s. split; [reflexivity|].
  exact (malformed_key_rejected Demo.deps s r _ eq_refl).
Defined.

Lemma putIPNSRecord_invalid_not_stored_witness :
  let r := Demo.req "bafykey" [("Content-Type", mediaTypeIPNSRecord)] "unsigned-record" in
  let s := Demo.srvWith [] in
  contains (headerGet (reqHeader r) "Content-Type") mediaTypeIPNSRecord = true /\
  cidDecode Demo.deps (reqCid r) = Ok "bafykey" /\
  NameFromCid Demo.deps "bafykey" = Ok "k51bafykey" /\
  readAllLimited (MaxRecordSize Demo.deps) (reqBody r) = Ok "unsigned-record" /\
  UnmarshalRecord Demo.deps "unsigned-record" = Ok "unsigned-record" /\
  ValidateWithName Demo.deps "unsigned-record" "k51bafykey" =
    Some "signature verification failed" /\
  (let st := putIPNSRecord Demo.deps s r initWorld in
   finalStatus (wRW st) = 400%Z /\
   rwBody (wRW st) = truncateCause ("provided record is invalid: " ++ "signature verification failed") /\
   hasPrefix (rwBody (wRW st)) "provided record is invalid: " = true /\
   wEvents st = []).
Proof.
  intros r s.
  assert (H1 : contains (headerGet (reqHeader r) "Content-Type") mediaTypeIPNSRecord = true)
    by (vm_compute; reflexivity).
  assert (H2 : readAllLimited (MaxRecordSize Demo.deps) (reqBody r) = Ok "unsigned-record")
    by (vm_compute; reflexivity).
  split; [exact H1|]. split; [reflexivity|]. split; [reflexivity|]. split; [exact H2|].
  split; [reflexivity|]. split; [reflexivity|].
  exact (putIPNSRecord_invalid_not_stored Demo.deps s r "bafykey" "k51bafykey"
           "unsigned-record" "signature verification failed" "unsigned-record"
           H1 eq_refl eq_refl H2 eq_refl eq_refl).
Defined.

Lemma FindProvidersAsync_forwards_peer_records_witness :
  let it := [RVal Demo.peer1; RErr "boom"; RVal Demo.other1; RVal Demo.peer2] in
  let c := ContentRouterClient.mkClient (fun _ => Ok it) in
  ContentRouterClient.ClientFindProviders c "bafykey" = Ok it /\
  snd (ContentRouterClient.FindProvidersAsync c "bafykey" 5) =
    (map ContentRouterClient.ChSend (peerAddrRecords it) ++
     [ContentRouterClient.ChIterClose; ContentRouterClient.ChClose])%list /\
  ContentRouterClient.received (snd (ContentRouterClient.FindProvidersAsync c "bafykey" 5)) =
    peerAddrRecords it.
Proof.
  intros it c. split; [reflexivity|].
  exact (BridgeProofs.FindProvidersAsync_forwards_peer_records c "bafykey" 5 it eq_refl).
Defined.

Lemma getIPNSRecord_etag_of_bytes_witness :
  let r := Demo.req "bafykey" [("Accept", mediaTypeIPNSRecord)] "" in
  let s := Demo.srvWith [] in
  contains (headerGet (reqHeader r) "Accept") mediaTypeIPNSRecord = true /\
  cidDecode Demo.deps (reqCid r) = Ok "bafykey" /\
  NameFromCid Demo.deps "bafykey" = Ok "k51bafykey" /\
  FindIPNSRecord (svc s) "k51bafykey" = Ok "signed:k51bafykey" /\
  MarshalRecord Demo.deps "signed:k51bafykey" = Ok "signed:k51bafykey" /\
  (let st := getIPNSRecord Demo.deps s r initWorld in
   headerGet (rwSentHeader (wRW st)) "Etag" = recordEtag "signed:k51bafykey" /\
   rwBody (wRW st) = "signed:k51bafykey" /\
   (forall a b, recordEtag a = recordEtag b <-> XXH64.Sum64 a = XXH64.Sum64 b) /\
   ~ (forall a b, a <> b -> XXH64.Sum64 a <> XXH64.Sum64 b)).
Proof.
  intros r s.
  assert (H1 : contains (headerGet (reqHeader r) "Accept") mediaTypeIPNSRecord = true)
    by (vm_compute; reflexivity).
  split; [exact H1|]. split; [reflexivity|]. split; [reflexivity|].
  split; [reflexivity|]. split; [reflexivity|].
  exact (getIPNSRecord_etag_of_bytes Demo.deps s r "bafykey" "k51bafykey"
           "signed:k51bafykey" "signed:k51bafykey" H1 eq_refl eq_refl eq_refl eq_refl).
Defined.

Lemma Handler_streaming_disabled_bulk_only_witness :
  let opts := [WithRecordsLimit 50; WithStreamingResultsDisabled] in
  In WithStreamingResultsDisabled opts /\
  (forall (hs : list string) (h : handlerFunc) (lim : Z),
     negotiate Demo.deps (HandlerServer (Demo.routerWith []) opts) hs = inl (h, lim) ->
     h = HJSON /\ lim = lastRecordsLimit opts) /\
  negotiate Demo.deps (HandlerServer (Demo.routerWith []) opts)
    ["application/x-ndjson,application/json"] = inl (HJSON, 50%Z).
Proof.
  intros opts. assert (Hin : In WithStreamingResultsDisabled opts) by (simpl; auto).
  split; [exact Hin|]. split; [|vm_compute; reflexivity].
  exact (Handler_streaming_disabled_bulk_only Demo.deps (Demo.routerWith []) opts Hin).
Defined.

Lemma findProviders_accept_lines_joined_witness :
  let r := Demo.req "bafykey" [("Accept", "application/x-ndjson"); ("Accept", "application/json")] "" in
  let r' := Demo.req "bafykey" [("Accept", "application/x-ndjson,application/json")] "" in
  let s := Demo.srvWith [RVal Demo.peer1] in
  reqCid r' = reqCid r /\
  headerValues (reqHeader r) "Accept" <> [] /\
  headerValues (reqHeader r') "Accept" = [String.concat "," (headerValues (reqHeader r) "Accept")] /\
  findProviders Demo.deps s r' initWorld = findProviders Demo.deps s r initWorld.
Proof.
  intros r r' s.
  assert (H1 : reqCid r' = reqCid r) by reflexivity.
  assert (H2 : headerValues (reqHeader r) "Accept" <> []) by (simpl; discriminate).
  assert (H3 : headerValues (reqHeader r') "Accept" =
               [String.concat "," (headerValues (reqHeader r) "Accept")])
    by (vm_compute; reflexivity).
  split; [exact H1|]. split; [exact H2|]. split; [exact H3|].
  exact (findProviders_accept_lines_joined Demo.deps s r r' initWorld H1 H2 H3).
Defined.

Lemma findProviders_bulk_marshal_error_witness :
  let r := Demo.req "bafykey" [] "" in
  let vs := [Demo.peer1; Demo.other1] in
  let s := Demo.srvWith (map RVal vs) in
  let e := "json: unsupported value" in
  cidDecode Demo.depsStrictJSON (reqCid r) = Ok "bafykey" /\
  negotiate Demo.depsStrictJSON s (headerValues (reqHeader r) "Accept") = inl (HJSON, 20%Z) /\
  FindProviders (svc s) "bafykey" 20 = Ok (map RVal vs) /\
  MarshalJSONBytes Demo.depsStrictJSON (JProvidersResponse vs) = Err e /\
  (let st := findProviders Demo.depsStrictJSON s r initWorld in
   wRW st = writeErr "FindProviders" 500 ("marshaling response: " ++ e)
              (headerAdd "Content-Type" mediaTypeJSON emptyRW) /\
   finalStatus (wRW st) = 500%Z /\
   rwSentHeader (wRW st) = [("Content-Type", mediaTypeJSON)] /\
   wEvents st = [EvFindProviders "bafykey" 20%Z; EvIterClose]).
Proof.
  intros r vs s e.
  assert (Hm : MarshalJSONBytes Demo.depsStrictJSON (JProvidersResponse vs) = Err e)
    by (vm_compute; reflexivity).
  split; [reflexivity|]. split; [reflexivity|]. split; [reflexivity|]. split; [exact Hm|].
  exact (findProviders_bulk_marshal_error Demo.depsStrictJSON s r "bafykey" 20 vs e
           eq_refl eq_refl eq_refl Hm).
Defined.

Lemma findProviders_stream_body_witness :
  let r := Demo.req "bafykey" [("Accept", mediaTypeNDJSON)] "" in
  let pre := [Demo.peer1] in
  let rest := [RVal Demo.other1; RVal Demo.peer2] in
  let s := Demo.srvWith (map RVal pre ++ rest)%list in
  cidDecode Demo.depsStrictJSON (reqCid r) = Ok "bafykey" /\
  negotiate Demo.depsStrictJSON s (headerValues (reqHeader r) "Accept") = inl (HNDJSON, 0%Z) /\
  FindProviders (svc s) "bafykey" 0 = Ok (map RVal pre ++ rest)%list /\
  Forall (fun v => exists b, MarshalJSONBytes Demo.depsStrictJSON (JRecord v) = Ok b) pre /\
  (rest = [] \/
   exists v e post, rest = RVal v :: post /\
                    MarshalJSONBytes Demo.depsStrictJSON (JRecord v) = Err e) /\
  (let st := findProviders Demo.depsStrictJSON s r initWorld in
   rwStatus (wRW st) = Some 200%Z /\
   rwSentHeader (wRW st) = [("Content-Type", mediaTypeNDJSON)] /\
   rwBody (wRW st) = ndjsonBody Demo.depsStrictJSON pre /\
   wEvents st = [EvFindProviders "bafykey" 0%Z; EvIterClose]).
Proof.
  intros r pre rest s.
  assert (Hn : negotiate Demo.depsStrictJSON s (headerValues (reqHeader r) "Accept")
               = inl (HNDJSON, 0%Z)) by (vm_compute; reflexivity).
  assert (Hm : Forall (fun v => exists b, MarshalJSONBytes Demo.depsStrictJSON (JRecord v) = Ok b) pre)
    by (constructor; [eexists; vm_compute; reflexivity|constructor]).
  assert (Hr : rest = [] \/
               exists v e post, rest = RVal v :: post /\
                                MarshalJSONBytes Demo.depsStrictJSON (JRecord v) = Err e)
    by (right; exists Demo.other1, "json: unsupported value", [RVal Demo.peer2];
        split; [reflexivity|vm_compute; reflexivity]).
  split; [reflexivity|]. split; [exact Hn|]. split; [reflexivity|].
  split; [exact Hm|]. split; [exact Hr|].
  exact (findProviders_stream_body Demo.depsStrictJSON s r "bafykey" 0 pre rest
           eq_refl Hn eq_refl Hm Hr).
Defined.

Lemma getIPNSRecord_accept_first_line_witness :
  let r := Demo.req "bafykey" [("Accept", mediaTypeJSON); ("Accept", mediaTypeIPNSRecord)] "" in
  (forall h1 rest, headerValues (reqHeader r) "Accept" = h1 :: rest ->
     contains h1 mediaTypeIPNSRecord = false) /\
  (let st := getIPNSRecord Demo.deps (Demo.srvWith []) r initWorld in
   wRW st = writeErr "GetIPNSRecord" 406
              "content type in 'Accept' header is missing or not supported" emptyRW /\
   wEvents st = []).
Proof.
  intros r.
  assert (H : forall h1 rest, headerValues (reqHeader r) "Accept" = h1 :: rest ->
                contains h1 mediaTypeIPNSRecord = false)
    by (intros h1 rest E; vm_compute in E; injection E as <- _; vm_compute; reflexivity).
  split; [exact H|].
  exact (getIPNSRecord_accept_first_line Demo.deps (Demo.srvWith []) r H).
Defined.

Lemma putIPNSRecord_content_type_first_line_witness :
  let r := Demo.req "bafykey"
             [("Content-Type", "application/octet-stream");
              ("Content-Type", mediaTypeIPNSRecord)] "signed:abc" in
  (forall h1 rest, headerValues (reqHeader r) "Content-Type" = h1 :: rest ->
     contains h1 mediaTypeIPNSRecord = false) /\
  (let st := putIPNSRecord Demo.deps (Demo.srvWith []) r initWorld in
   wRW st = writeErr "PutIPNSRecord" 406
              "content type in 'Content-Type' header is missing or not supported" emptyRW /\
   wEvents st = []).
Proof.
  intros r.
  assert (H : forall h1 rest, headerValues (reqHeader r) "Content-Type" = h1 :: rest ->
                contains h1 mediaTypeIPNSRecord = false)
    by (intros h1 rest E; vm_compute in E; injection E as <- _; vm_compute; reflexivity).
  split; [exact H|].
  exact (putIPNSRecord_content_type_first_line Demo.deps (Demo.srvWith []) r H).
Defined.

Lemma getIPNSRecord_success_witness :
  let r := Demo.req "bafykey" [("Accept", mediaTypeIPNSRecord)] "" in
  let s := Demo.srvWith [] in
  contains (headerGet (reqHeader r) "Accept") mediaTypeIPNSRecord = true /\
  cidDecode Demo.deps (reqCid r) = Ok "bafykey" /\
  NameFromCid Demo.deps "bafykey" = Ok "k51bafykey" /\
  FindIPNSRecord (svc s) "k51bafykey" = Ok "signed:k51bafykey" /\
  MarshalRecord Demo.deps "signed:k51bafykey" = Ok "signed:k51bafykey" /\
  (let cacheControl :=
     match RecordTTL Demo.deps "signed:k51bafykey" with
     | Ok secs => "max-age=" ++ formatInt secs
     | Err _ => "max-age=60"
     end in
   let st := getIPNSRecord Demo.deps s r initWorld in
   finalStatus (wRW st) = 200%Z /\
   rwBody (wRW st) = "signed:k51bafykey" /\
   rwSentHeader (wRW st) =
     [("Cache-Control", cacheControl); ("Etag", recordEtag "signed:k51bafykey");
      ("Content-Type", mediaTypeIPNSRecord)] /\
   wEvents st = [EvFindIPNSRecord "k51bafykey"]).
Proof.
  intros r s.
  assert (Ha : contains (headerGet (reqHeader r) "Accept") mediaTypeIPNSRecord = true)
    by (vm_compute; reflexivity).
  split; [exact Ha|]. split; [reflexivity|]. split; [reflexivity|].
  split; [reflexivity|]. split; [reflexivity|].
  exact (getIPNSRecord_success Demo.deps s r "bafykey" "k51bafykey" "signed:k51bafykey"
           "signed:k51bafykey" Ha eq_refl eq_refl eq_refl eq_refl).
Defined.

Lemma getIPNSRecord_failures_witness :
  let r := Demo.req "bafykey" [("Accept", mediaTypeIPNSRecord)] "" in
  let s := Demo.srvWith [] in
  contains (headerGet (reqHeader r) "Accept") mediaTypeIPNSRecord = true /\
  cidDecode Demo.deps (reqCid r) = Ok "bafykey" /\
  (let st := getIPNSRecord Demo.deps s r initWorld in
   (forall e, NameFromCid Demo.deps "bafykey" = Err e ->
      wRW st = writeErr "GetIPNSRecord" 400 ("peer ID CID is not valid: " ++ e) emptyRW /\
      wEvents st = []) /\
   (forall name e, NameFromCid Demo.deps "bafykey" = Ok name ->
      FindIPNSRecord (svc s) name = Err e ->
      wRW st = writeErr "GetIPNSRecord" 500 ("delegate error: " ++ e) emptyRW /\
      wEvents st = [EvFindIPNSRecord name]) /\
   (forall name record e, NameFromCid Demo.deps "bafykey" = Ok name ->
      FindIPNSRecord (svc s) name = Ok record -> MarshalRecord Demo.deps record = Err e ->
      wRW st = writeErr "GetIPNSRecord" 500 e emptyRW /\
      wEvents st = [EvFindIPNSRecord name])).
Proof.
  intros r s.
  assert (Ha : contains (headerGet (reqHeader r) "Accept") mediaTypeIPNSRecord = true)
    by (vm_compute; reflexivity).
  split; [exact Ha|]. split; [reflexivity|].
  exact (getIPNSRecord_failures Demo.deps s r "bafykey" Ha eq_refl).
Defined.

Lemma putIPNSRecord_store_outcome_witness :
  let r := Demo.req "bafykey" [("Content-Type", mediaTypeIPNSRecord)] "signed:abc" in
  let s := Demo.srvWith [] in
  contains (headerGet (reqHeader r) "Content-Type") mediaTypeIPNSRecord = true /\
  cidDecode Demo.deps (reqCid r) = Ok "bafykey" /\
  NameFromCid Demo.deps "bafykey" = Ok "k51bafykey" /\
  readAllLimited (MaxRecordSize Demo.deps) (reqBody r) = Ok "signed:abc" /\
  UnmarshalRecord Demo.deps "signed:abc" = Ok "signed:abc" /\
  ValidateWithName Demo.deps "signed:abc" "k51bafykey" = None /\
  (let st := putIPNSRecord Demo.deps s r initWorld in
   wEvents st = [EvProvideIPNSRecord "k51bafykey" "signed:abc"] /\
   (ProvideIPNSRecord (svc s) "k51bafykey" "signed:abc" = None ->
      finalStatus (wRW st) = 200%Z /\ rwBody (wRW st) = "" /\ rwSentHeader (wRW st) = []) /\
   (forall e, ProvideIPNSRecord (svc s) "k51bafykey" "signed:abc" = Some e ->
      wRW st = writeErr "PutIPNSRecord" 500 ("delegate error: " ++ e) emptyRW)).
Proof.
  intros r s.
  assert (Hct : contains (headerGet (reqHeader r) "Content-Type") mediaTypeIPNSRecord = true)
    by (vm_compute; reflexivity).
  assert (Hr : readAllLimited (MaxRecordSize Demo.deps) (reqBody r) = Ok "signed:abc")
    by (vm_compute; reflexivity).
  split; [exact Hct|]. split; [reflexivity|]. split; [reflexivity|].
  split; [exact Hr|]. split; [reflexivity|]. split; [reflexivity|].
  exact (putIPNSRecord_store_outcome Demo.deps s r "bafykey" "k51bafykey" "signed:abc"
           "signed:abc" Hct eq_refl eq_refl Hr eq_refl eq_refl).
Defined.

Lemma putIPNSRecord_stores_only_validated_witness :
  let r := Demo.req "bafykey" [("Content-Type", mediaTypeIPNSRecord)] "signed:abc" in
  let s := Demo.srvWith [] in
  In (EvProvideIPNSRecord "k51bafykey" "signed:abc") (wEvents (putIPNSRecord Demo.deps s r initWorld)) /\
  (contains (headerGet (reqHeader r) "Content-Type") mediaTypeIPNSRecord = true /\
   (exists c rawRecord,
      cidDecode Demo.deps (reqCid r) = Ok c /\ NameFromCid Demo.deps c = Ok "k51bafykey" /\
      readAllLimited (MaxRecordSize Demo.deps) (reqBody r) = Ok rawRecord /\
      (String.length rawRecord <= MaxRecordSize Demo.deps)%nat /\
      hasPrefix (bodyBytes (reqBody r)) rawRecord = true /\
      UnmarshalRecord Demo.deps rawRecord = Ok "signed:abc" /\
      ValidateWithName Demo.deps "signed:abc" "k51bafykey" = None) /\
   wEvents (putIPNSRecord Demo.deps s r initWorld) = [EvProvideIPNSRecord "k51bafykey" "signed:abc"]).
Proof.
  intros r s.
  assert (Hin : In (EvProvideIPNSRecord "k51bafykey" "signed:abc")
                   (wEvents (putIPNSRecord Demo.deps s r initWorld)))
    by (vm_compute; left; reflexivity).
  split; [exact Hin|].
  exact (putIPNSRecord_stores_only_validated Demo.deps s r "k51bafykey" "signed:abc" Hin).
Defined.

Lemma putIPNSRecord_rejections_witness :
  let r := Demo.req "bafykey" [("Content-Type", mediaTypeIPNSRecord)] "" in
  let s := Demo.srvWith [] in
  contains (headerGet (reqHeader r) "Content-Type") mediaTypeIPNSRecord = true /\
  cidDecode Demo.deps (reqCid r) = Ok "bafykey" /\
  (let st := putIPNSRecord Demo.deps s r initWorld in
   (forall e, NameFromCid Demo.deps "bafykey" = Err e ->
      wRW st = writeErr "PutIPNSRecord" 400 ("peer ID CID is not valid: " ++ e) emptyRW /\
      wEvents st = []) /\
   (forall name e, NameFromCid Demo.deps "bafykey" = Ok name ->
      (String.length (bodyBytes (reqBody r)) < MaxRecordSize Demo.deps)%nat ->
      bodyErr (reqBody r) = Some e ->
      wRW st = writeErr "PutIPNSRecord" 400 ("provided record is too long: " ++ e) emptyRW /\
      wEvents st = []) /\
   (forall name rawRecord e, NameFromCid Demo.deps "bafykey" = Ok name ->
      readAllLimited (MaxRecordSize Demo.deps) (reqBody r) = Ok rawRecord ->
      UnmarshalRecord Demo.deps rawRecord = Err e ->
      wRW st = writeErr "PutIPNSRecord" 400 ("provided record is invalid: " ++ e) emptyRW /\
      wEvents st = [])).
Proof.
  intros r s.
  assert (Hct : contains (headerGet (reqHeader r) "Content-Type") mediaTypeIPNSRecord = true)
    by (vm_compute; reflexivity).
  split; [exact Hct|]. split; [reflexivity|].
  exact (putIPNSRecord_rejections Demo.deps s r "bafykey" Hct eq_refl).
Defined.
